(** * GPS_tracker_nmea: a shallow embedding of [GPS_tracker.py]

    The development follows the source file from the leaves up:
    - [Py]: the few Python built-ins the module relies on (exceptions,
      [str.find], slicing, [str.strip], [float] on decimal text, the
      [time] module);
    - [Nmea]: the utility functions [_nmea_to_decimal],
      [_nmea_time_to_epoch], [_nmea_datetime_to_epoch];
    - [Geo]: [haversine_distance_m];
    - [Tracker]: the [Position] and [GPSTracker] classes: [start],
      [_open_serial], [_read_loop], [get_last], [get_history],
      [geofence_check_circle];
    - [Fixtures]: sample sentences and a host to evaluate the code on;
    - [PyFacts], [NmeaFacts], [GeoFacts], [TrackerFacts], [DecoderFacts]:
      lemmas, each group followed by the properties it serves.

    Numbers.  A Python [float] that is finite is a rational number, so
    coordinate values are carried as [Q] and the arithmetic of
    [_nmea_to_decimal] is the exact one (no rounding).  The trigonometry
    of [haversine_distance_m] is carried out in [R].

    Threads.  The worker thread is the run of [_read_loop] on the state
    [start] leaves; what the other threads do while it runs appears as
    events of the loop, and the block under the lock is one step. *)

From Stdlib Require Import Bool Arith ZArith QArith Qabs Lia List Ascii String.
From Stdlib Require Import Reals Qreals Lra.
Import ListNotations.

(* ================================================================== *)
(** ** Python built-ins *)

Module Py.

(** Exceptions the module can meet. *)
Inductive exn : Type :=
| ValueError
| AttributeError
| OverflowError
| TypeError
| RuntimeError
| SerialException.

(** A computation that returns or raises. *)
Inductive exc (A : Type) : Type :=
| Ok (a : A)
| Raise (e : exn).

Arguments Ok {A} a.
Arguments Raise {A} e.

Definition bind {A B : Type} (m : exc A) (k : A -> exc B) : exc B :=
  match m with
  | Ok a => k a
  | Raise e => Raise e
  end.

(** [try: body / except Exception as e: handler e]. *)
Definition try_except {A : Type} (body : exc A) (handler : exn -> exc A) : exc A :=
  match body with
  | Ok a => Ok a
  | Raise e => handler e
  end.

Definition returns {A : Type} (m : exc A) : Prop := exists a, m = Ok a.

(** *** Strings *)

Open Scope Z_scope.

Definition len (s : string) : Z := Z.of_nat (String.length s).

(** Truthiness of a [str]: non-empty. *)
Definition truthy (s : string) : bool :=
  match s with
  | EmptyString => false
  | String _ _ => true
  end.

Fixpoint find_from (c : ascii) (s : string) (i : Z) : Z :=
  match s with
  | EmptyString => -1
  | String a r => if Ascii.eqb a c then i else find_from c r (i + 1)
  end.

(** [s.find(c)]: the index of the first [c], or [-1]. *)
Definition find (c : ascii) (s : string) : Z := find_from c s 0.

Fixpoint take (n : nat) (s : string) : string :=
  match n, s with
  | S n', String a r => String a (take n' r)
  | _, _ => EmptyString
  end.

Fixpoint drop (n : nat) (s : string) : string :=
  match n, s with
  | S n', String _ r => drop n' r
  | _, _ => s
  end.

(** A slice bound as Python normalises it: a negative bound counts from
    the end, and bounds are clipped to the string. *)
Definition slice_index (s : string) (i : Z) : nat :=
  if i <? 0 then Z.to_nat (Z.max 0 (len s + i)) else Z.to_nat i.

(** [s[:i]] and [s[i:]]. *)
Definition slice_to (s : string) (i : Z) : string := take (slice_index s i) s.
Definition slice_from (s : string) (i : Z) : string := drop (slice_index s i) s.

(** ASCII white space, as [str.strip] and [float] skip it. *)
Definition is_space (c : ascii) : bool :=
  let n := nat_of_ascii c in
  (((9 <=? n) && (n <=? 13)) || ((28 <=? n) && (n <=? 32)))%nat.

Fixpoint lstrip (s : string) : string :=
  match s with
  | String c r => if is_space c then lstrip r else s
  | EmptyString => EmptyString
  end.

Fixpoint rstrip (s : string) : string :=
  match s with
  | EmptyString => EmptyString
  | String c r =>
      match rstrip r with
      | EmptyString => if is_space c then EmptyString else String c EmptyString
      | r' => String c r'
      end
  end.

Definition strip (s : string) : string := rstrip (lstrip s).

(** *** [float] on text

    [float(s)] for the finite decimal literals: optional surrounding
    white space (the six characters of C's [isspace], not the separators
    28 to 31 that [str.strip] also removes), an optional sign, digits with
    an optional point (at least one digit in all) and an optional
    exponent, where single underscores may stand between digits.
    Anything else raises [ValueError].  Values are exact rationals: the
    spellings of infinity and not-a-number denote no rational and are
    outside this model, as are rounding and overflow. *)

(** White space as [float] skips it. *)
Definition is_c_space (c : ascii) : bool :=
  let n := nat_of_ascii c in
  (((9 <=? n) && (n <=? 13)) || (n =? 32))%nat.

Fixpoint lstrip_by (p : ascii -> bool) (s : string) : string :=
  match s with
  | String c r => if p c then lstrip_by p r else s
  | EmptyString => EmptyString
  end.

Fixpoint rstrip_by (p : ascii -> bool) (s : string) : string :=
  match s with
  | EmptyString => EmptyString
  | String c r =>
      match rstrip_by p r with
      | EmptyString => if p c then EmptyString else String c EmptyString
      | r' => String c r'
      end
  end.

Definition strip_by (p : ascii -> bool) (s : string) : string :=
  rstrip_by p (lstrip_by p s).

Definition is_digit (c : ascii) : bool :=
  let n := nat_of_ascii c in ((48 <=? n) && (n <=? 57))%nat.

Definition digit_val (c : ascii) : Z := Z.of_nat (nat_of_ascii c) - 48.

(** Reads a run of digits: the accumulated value, how many were read and
    the rest of the text. *)
Fixpoint read_digits (s : string) (acc : Z) (n : nat) : Z * nat * string :=
  match s with
  | String c r =>
      if is_digit c then read_digits r (10 * acc + digit_val c) (S n)
      else (acc, n, s)
  | EmptyString => (acc, n, s)
  end.

(** The value of a digit string. *)
Definition digits_val (s : string) : Z := fst (fst (read_digits s 0 O)).

(** [m * 10^k] as a rational. *)
Definition scale10 (m k : Z) : Q :=
  if 0 <=? k then inject_Z (m * 10 ^ k)
  else Qmake m (Z.to_pos (10 ^ (- k))).

Definition read_sign (s : string) : bool * string :=
  match s with
  | String "-" r => (true, r)
  | String "+" r => (false, r)
  | _ => (false, s)
  end.

(** The exponent part: empty, or [e]/[E], an optional sign and digits. *)
Definition read_exponent (s : string) : exc Z :=
  match s with
  | EmptyString => Ok 0
  | String c r =>
      if (Ascii.eqb c "e" || Ascii.eqb c "E")%bool then
        let '(neg, r1) := read_sign r in
        match read_digits r1 0 O with
        | (_, O, _) => Raise ValueError
        | (e, S _, EmptyString) => Ok (if neg then - e else e)
        | (_, S _, String _ _) => Raise ValueError
        end
      else Raise ValueError
  end.

(** Removes the underscores of a numeral: each one must follow a digit
    and be followed by a digit.  [prev] is the character before [s]. *)
Fixpoint drop_underscores (prev : ascii) (s : string) : option string :=
  match s with
  | EmptyString => if Ascii.eqb prev "_" then None else Some EmptyString
  | String c r =>
      if Ascii.eqb c "_" then
        (if is_digit prev then drop_underscores c r else None)
      else if (Ascii.eqb prev "_" && negb (is_digit c))%bool then None
      else option_map (String c) (drop_underscores c r)
  end.

(** A numeral without underscores: sign, digits, point, exponent. *)
Definition float_literal (text : string) : exc Q :=
  let '(neg, body) := read_sign text in
  let '(ip, ni, r1) := read_digits body 0 O in
  let '(mant, nf, r2) :=
    match r1 with
    | String "." r => let '(m, k, r') := read_digits r ip O in (m, k, r')
    | _ => (ip, O, r1)
    end in
  match (ni + nf)%nat with
  | O => Raise ValueError
  | S _ =>
      bind (read_exponent r2) (fun e =>
        let v := scale10 mant (e - Z.of_nat nf) in
        Ok (if neg then Qopp v else v))
  end.

Definition float (s : string) : exc Q :=
  match drop_underscores Ascii.zero (strip_by is_c_space s) with
  | None => Raise ValueError
  | Some text => float_literal text
  end.

(** *** The [time] module *)

Record struct_time : Type := {
  tm_year : Z; tm_mon : Z; tm_mday : Z;
  tm_hour : Z; tm_min : Z; tm_sec : Z;
  tm_wday : Z; tm_yday : Z; tm_isdst : Z
}.

(** What the host provides: [time.localtime()] read at the call, and
    [time.mktime], which raises on a tuple it cannot convert. *)
Record time_module : Type := {
  localtime : struct_time;
  mktime : struct_time -> exc Q
}.

Close Scope Z_scope.

End Py.

(* ================================================================== *)
(** ** Utility functions of the module *)

Module Nmea.
Import Py.

Open Scope Z_scope.

(** The number of leading characters [_nmea_to_decimal] reads as degrees. *)
Definition deg_len (coord_str : string) : Z :=
  let dot_pos := find "." coord_str in
  if dot_pos =? -1 then
    (if len coord_str <=? 4 then 2 else len coord_str - 4)
  else
    (if dot_pos <=? 4 then 2 else dot_pos - 2).

(** [direction in ('S', 'W')]. *)
Definition south_or_west (direction : string) : bool :=
  (String.eqb direction "S" || String.eqb direction "W")%bool.

Definition _nmea_to_decimal (coord_str direction : string) : exc Q :=
  if negb (truthy coord_str) then Raise ValueError
  else
    let deg_len := deg_len coord_str in
    bind (float (slice_to coord_str deg_len)) (fun degrees =>
    bind (float (slice_from coord_str deg_len)) (fun minutes =>
      let dec := (degrees + minutes / 60)%Q in
      Ok (if south_or_west direction then Qopp dec else dec))).

(** *** Time stamps

    A [timestamp] attribute of a parsed sentence is [None], a
    [datetime.time], or the raw field text when its conversion failed;
    likewise a [datestamp]. *)

Inductive time_field : Type :=
| NoTime
| Time (hour minute second : Z)
| RawTime (text : string).

Inductive date_field : Type :=
| NoDate
| Date (year month day : Z)
| RawDate (text : string).

(** Attribute reads: a [str] has no [hour], [year], ... *)
Definition time_attrs (t : time_field) : exc (Z * Z * Z) :=
  match t with
  | Time h m s => Ok (h, m, s)
  | NoTime | RawTime _ => Raise AttributeError
  end.

Definition date_attrs (d : date_field) : exc (Z * Z * Z) :=
  match d with
  | Date y m d => Ok (y, m, d)
  | NoDate | RawDate _ => Raise AttributeError
  end.

Definition is_none_time (t : time_field) : bool :=
  match t with NoTime => true | _ => false end.

Definition is_none_date (d : date_field) : bool :=
  match d with NoDate => true | _ => false end.

(** The tuple [_nmea_time_to_epoch] hands to [mktime]: the date and the
    day fields of [now], the time of the fix. *)
Definition today_tuple (now : struct_time) (hour minute second : Z) : struct_time :=
  {| tm_year := tm_year now; tm_mon := tm_mon now; tm_mday := tm_mday now;
     tm_hour := hour; tm_min := minute; tm_sec := second;
     tm_wday := tm_wday now; tm_yday := tm_yday now; tm_isdst := tm_isdst now |}.

(** The tuple [_nmea_datetime_to_epoch] hands to [mktime]. *)
Definition date_tuple (year month day hour minute second : Z) : struct_time :=
  {| tm_year := year; tm_mon := month; tm_mday := day;
     tm_hour := hour; tm_min := minute; tm_sec := second;
     tm_wday := 0; tm_yday := 0; tm_isdst := -1 |}.

Section Epoch.

(** The [time] module of the host: the clock reading and [mktime]. *)
Variable tm : time_module.

Definition _nmea_time_to_epoch (nmea_time : time_field) : exc (option Q) :=
  if is_none_time nmea_time then Ok None
  else
    try_except
      (let t := nmea_time in
       let now := localtime tm in
       bind (time_attrs t) (fun '(hour, minute, second) =>
       bind (mktime tm (today_tuple now hour minute second)) (fun epoch =>
       Ok (Some epoch))))
      (fun _ => Ok None).

Definition _nmea_datetime_to_epoch (datestamp : date_field) (timestamp : time_field)
  : exc (option Q) :=
  if (is_none_date datestamp || is_none_time timestamp)%bool then
    _nmea_time_to_epoch timestamp
  else
    try_except
      (let dt := datestamp in
       let t := timestamp in
       bind (date_attrs dt) (fun '(year, month, day) =>
       bind (time_attrs t) (fun '(hour, minute, second) =>
       bind (mktime tm (date_tuple year month day hour minute second)) (fun epoch =>
       Ok (Some epoch)))))
      (fun _ => Ok None).

End Epoch.

Close Scope Z_scope.

End Nmea.


(* ================================================================== *)
(** ** Great-circle distance *)

Module Geo.

Open Scope R_scope.

(** [math.radians]. *)
Definition radians (x : R) : R := x * PI / 180.

(** [math.atan2 y x]: the angle of the point [(x, y)]. *)
Definition atan2 (y x : R) : R :=
  if Rlt_dec 0 x then atan (y / x)
  else if Rlt_dec x 0 then
    (if Rle_dec 0 y then atan (y / x) + PI else atan (y / x) - PI)
  else if Rlt_dec 0 y then PI / 2
  else if Rlt_dec y 0 then - PI / 2
  else 0.

(** [haversine_distance_m] over the real numbers.  The rounding of
    binary64 arithmetic is not modelled: in the code it can take [1 - a]
    below zero for points that are nearly antipodal, where [math.sqrt]
    then raises [ValueError]. *)
Definition haversine_distance_m (p1 p2 : R * R) : R :=
  let '(lat1, lon1) := p1 in
  let '(lat2, lon2) := p2 in
  let R := 6371000 in
  let phi1 := radians lat1 in
  let phi2 := radians lat2 in
  let dphi := radians (lat2 - lat1) in
  let dlambda := radians (lon2 - lon1) in
  let a := sin (dphi / 2) ^ 2 + cos phi1 * cos phi2 * (sin (dlambda / 2) ^ 2) in
  let c := 2 * atan2 (sqrt a) (sqrt (1 - a)) in
  R * c.

Close Scope R_scope.

End Geo.

(* ================================================================== *)
(** ** The tracker *)

Module Tracker.
Import Py Nmea Geo.

(** [class Position]. *)
Record Position : Type := {
  lat : Q;
  lon : Q;
  alt : option Q;
  timestamp : option Q
}.

(** *** Parsed sentences

    [pynmea2.parse] is a dependency; a parsed sentence is kept as the
    attributes [_read_loop] reads from it.  [alt] is [None], field text or
    a number; reading it raises when the sentence class has no such
    attribute. *)

Inductive alt_field : Type :=
| AltNone
| AltStr (text : string)
| AltFloat (value : Q).

Record GGA : Type := {
  gga_lat : string;
  gga_lat_dir : string;
  gga_lon : string;
  gga_lon_dir : string;
  gga_alt : exc alt_field;
  gga_timestamp : time_field
}.

Record RMC : Type := {
  rmc_lat : string;
  rmc_lat_dir : string;
  rmc_lon : string;
  rmc_lon_dir : string;
  rmc_status : string;
  rmc_datestamp : date_field;
  rmc_timestamp : time_field
}.

Inductive msg : Type :=
| MsgGGA (m : GGA)
| MsgRMC (m : RMC)
| MsgOther.

(** The outcome of [pynmea2.parse]: a sentence, or one of the two
    exceptions [_read_loop] catches around it. *)
Inductive parse_result : Type :=
| Parsed (m : msg)
| ChecksumError
| ParseError.

(** *** [collections.deque] with [maxlen] *)

Record deque : Type := {
  items : list Position;
  maxlen : nat
}.

(** [d.append(x)]: add on the right, then drop from the left when the
    bound is passed. *)
Definition append (d : deque) (x : Position) : deque :=
  let l := items d ++ [x] in
  {| items := if (maxlen d <? List.length l)%nat then tl l else l;
     maxlen := maxlen d |}.

(** *** State of a tracker *)

Record Serial : Type := { is_open : bool }.

Record Thread : Type := { is_alive : bool }.

(** What the module prints. *)
Inductive printed : Type :=
| ErrorOpeningSerial (port : string) (e : exn)
| CallbackError (e : exn)
| ReadLoopError (e : exn).

(** The attributes of a [GPSTracker], with the text printed so far. *)
Record GPSTracker : Type := {
  serial_port : string;
  baudrate : Z;
  timeout : Q;
  _ser : option Serial;
  _thread : option Thread;
  _stop_event : bool;
  _callback : option (Position -> exc unit);
  _history : deque;
  _last_position : option Position;
  stdout : list printed
}.

(** [GPSTracker.__init__]. *)
Definition init (serial_port : string) (baudrate : Z) (timeout : Q)
  (history_size : nat) : GPSTracker :=
  {| serial_port := serial_port;
     baudrate := baudrate;
     timeout := timeout;
     _ser := None;
     _thread := None;
     _stop_event := false;
     _callback := None;
     _history := {| items := []; maxlen := history_size |};
     _last_position := None;
     stdout := [] |}.

Definition set_callback (cb : Position -> exc unit) (self : GPSTracker) : GPSTracker :=
  {| serial_port := serial_port self; baudrate := baudrate self;
     timeout := timeout self; _ser := _ser self; _thread := _thread self;
     _stop_event := _stop_event self; _callback := Some cb;
     _history := _history self; _last_position := _last_position self;
     stdout := stdout self |}.

Definition set_ser (ser : option Serial) (self : GPSTracker) : GPSTracker :=
  {| serial_port := serial_port self; baudrate := baudrate self;
     timeout := timeout self; _ser := ser; _thread := _thread self;
     _stop_event := _stop_event self; _callback := _callback self;
     _history := _history self; _last_position := _last_position self;
     stdout := stdout self |}.

Definition set_thread (th : option Thread) (self : GPSTracker) : GPSTracker :=
  {| serial_port := serial_port self; baudrate := baudrate self;
     timeout := timeout self; _ser := _ser self; _thread := th;
     _stop_event := _stop_event self; _callback := _callback self;
     _history := _history self; _last_position := _last_position self;
     stdout := stdout self |}.

Definition set_stop_event (b : bool) (self : GPSTracker) : GPSTracker :=
  {| serial_port := serial_port self; baudrate := baudrate self;
     timeout := timeout self; _ser := _ser self; _thread := _thread self;
     _stop_event := b; _callback := _callback self;
     _history := _history self; _last_position := _last_position self;
     stdout := stdout self |}.

Definition print (p : printed) (self : GPSTracker) : GPSTracker :=
  {| serial_port := serial_port self; baudrate := baudrate self;
     timeout := timeout self; _ser := _ser self; _thread := _thread self;
     _stop_event := _stop_event self; _callback := _callback self;
     _history := _history self; _last_position := _last_position self;
     stdout := stdout self ++ [p] |}.

(** The block under [with self._lock:] in [_read_loop]: both attributes
    change in one critical section. *)
Definition record (pos : Position) (self : GPSTracker) : GPSTracker :=
  {| serial_port := serial_port self; baudrate := baudrate self;
     timeout := timeout self; _ser := _ser self; _thread := _thread self;
     _stop_event := _stop_event self; _callback := _callback self;
     _history := append (_history self) pos;
     _last_position := Some pos;
     stdout := stdout self |}.

Definition thread_alive (self : GPSTracker) : bool :=
  match _thread self with
  | Some th => is_alive th
  | None => false
  end.

(** The thread object, if there is one, stops being alive when its
    target returns. *)
Definition thread_exit (self : GPSTracker) : GPSTracker :=
  set_thread (match _thread self with
              | Some _ => Some {| is_alive := false |}
              | None => None
              end) self.

Definition ser_open (self : GPSTracker) : bool :=
  match _ser self with
  | Some ser => is_open ser
  | None => false
  end.

(** [GPSTracker.start]: it creates and starts the thread that will run
    [_read_loop], and returns. *)
Definition start (self : GPSTracker) : exc unit * GPSTracker :=
  if thread_alive self then (Ok tt, self)
  else
    (Ok tt, set_thread (Some {| is_alive := true |}) (set_stop_event false self)).

Definition get_last (self : GPSTracker) : option Position := _last_position self.

Definition get_history (self : GPSTracker) : list Position := items (_history self).

(** [d <= radius_m] on real numbers. *)
Definition Rle_bool (x y : R) : bool := if Rle_dec x y then true else false.

Definition geofence_check_circle (self : GPSTracker) (center : R * R) (radius_m : R)
  : option bool :=
  match get_last self with
  | None => None
  | Some last =>
      let d := haversine_distance_m (Q2R (lat last), Q2R (lon last)) center in
      Some (Rle_bool d radius_m)
  end.

Section Loop.

(** The dependencies and the host: [pynmea2.parse], the [time] module,
    the [serial.Serial] constructor and [bytes.decode(errors="ignore")]. *)
Variable parse : string -> parse_result.
Variable tm : time_module.
Variable serial_Serial : string -> Z -> Q -> exc Serial.
Variable decode : string -> string.

Definition _open_serial (self : GPSTracker) : exc GPSTracker :=
  if ser_open self then Ok self
  else
    bind (serial_Serial (serial_port self) (baudrate self) (timeout self))
      (fun ser => Ok (set_ser (Some ser) self)).

(** [float(msg.alt) if msg.alt not in (None, '') else None]. *)
Definition read_alt (a : alt_field) : exc (option Q) :=
  match a with
  | AltNone => Ok None
  | AltStr text =>
      if truthy text then bind (float text) (fun v => Ok (Some v)) else Ok None
  | AltFloat v => Ok (Some v)
  end.

(** The fix of a parsed sentence: the [isinstance] dispatch of
    [_read_loop], which leaves [pos] at [None] or builds a [Position]. *)
Definition decode_fix (m : msg) : exc (option Position) :=
  match m with
  | MsgGGA g =>
      if (truthy (gga_lat g) && truthy (gga_lon g))%bool then
        bind (_nmea_to_decimal (gga_lat g) (gga_lat_dir g)) (fun lat =>
        bind (_nmea_to_decimal (gga_lon g) (gga_lon_dir g)) (fun lon =>
        bind (bind (gga_alt g) read_alt) (fun alt =>
        bind (_nmea_time_to_epoch tm (gga_timestamp g)) (fun timestamp =>
        Ok (Some {| lat := lat; lon := lon; alt := alt; timestamp := timestamp |})))))
      else Ok None
  | MsgRMC r =>
      if (truthy (rmc_lat r) && truthy (rmc_lon r) && String.eqb (rmc_status r) "A")%bool then
        bind (_nmea_to_decimal (rmc_lat r) (rmc_lat_dir r)) (fun lat =>
        bind (_nmea_to_decimal (rmc_lon r) (rmc_lon_dir r)) (fun lon =>
        let alt := None in
        bind (_nmea_datetime_to_epoch tm (rmc_datestamp r) (rmc_timestamp r)) (fun timestamp =>
        Ok (Some {| lat := lat; lon := lon; alt := alt; timestamp := timestamp |}))))
      else Ok None
  | MsgOther => Ok None
  end.

(** What one raw line yields: a [Position], nothing, or an exception that
    reaches the outer handler of the loop. *)
Definition decode_line (line : string) : exc (option Position) :=
  let line_str := strip (decode line) in
  if negb (truthy line_str) then Ok None
  else
    match parse line_str with
    | ChecksumError => Ok None
    | ParseError => Ok None
    | Parsed m => decode_fix m
    end.

(** [if pos:] and what follows: record under the lock, then the callback
    inside its own [try].  The callback is taken to observe the position
    only: it returns or raises, and changes neither the object it is
    handed nor the tracker. *)
Definition publish (pos : Position) (self : GPSTracker) : GPSTracker :=
  let self := record pos self in
  match _callback self with
  | None => self
  | Some cb =>
      match cb pos with
      | Ok _ => self
      | Raise cb_e => print (CallbackError cb_e) self
      end
  end.

(** One [self._ser.readline()]: bytes (empty on a timeout) or an
    exception. *)
Inductive readline : Type :=
| Line (line : string)
| ReadFails (e : exn).

(** The body of the [while] loop for one [readline]. *)
Definition iteration (r : readline) (self : GPSTracker) : GPSTracker :=
  match r with
  | ReadFails e => print (ReadLoopError e) self
  | Line line =>
      if negb (truthy line) then self
      else
        match decode_line line with
        | Raise e => print (ReadLoopError e) self
        | Ok None => self
        | Ok (Some pos) => publish pos self
        end
  end.

(** What happens while the worker runs: it reads a line, or another
    thread calls [stop] and sets the event. *)
Inductive event : Type :=
| Read (r : readline)
| StopSet.

(** [while not self._stop_event.is_set(): ...] over the events met; the
    worker is done when the event is seen set, or the events end. *)
Fixpoint while_loop (events : list event) (self : GPSTracker) : GPSTracker :=
  match events with
  | [] => self
  | ev :: rest =>
      if _stop_event self then self
      else
        match ev with
        | StopSet => while_loop rest (set_stop_event true self)
        | Read r => while_loop rest (iteration r self)
        end
  end.

(** [_read_loop], the target of the thread; the thread is no longer
    alive when it returns. *)
Definition _read_loop (events : list event) (self : GPSTracker) : GPSTracker :=
  match _open_serial self with
  | Raise e => thread_exit (print (ErrorOpeningSerial (serial_port self) e) self)
  | Ok self => thread_exit (while_loop events self)
  end.

End Loop.

End Tracker.

(* ================================================================== *)
(** ** Test doubles

    A fixed table in place of [pynmea2.parse], a host clock, a serial
    port that opens and one that does not, and ASCII decoding.  The
    sentences of the table read as the library's classes do: an RMC
    sentence has the attributes the loop reads, and a GGA sentence has no
    attribute [alt] (its field is named [altitude]), so reading it
    raises. *)

Module Fixtures.
Import Py Nmea Tracker.

Open Scope string_scope.

Definition gga_line : string :=
  "$GPGGA,123519,4916.45,N,12311.12,W,1,08,0.9,545.4,M,46.9,M,,*5F".

Definition rmc_far_north_line : string :=
  "$GPRMC,123519,A,9959.99,N,01131.000,E,022.4,084.4,230394,003.1,W*56".

Definition rmc_active_line : string :=
  "$GPRMC,123519,A,4807.038,N,01131.000,E,022.4,084.4,230394,003.1,W*6A".

Definition rmc_void_line : string :=
  "$GPRMC,123519,V,4807.038,N,01131.000,E,022.4,084.4,230394,003.1,W*7D".

Definition rmc_short_lat_line : string :=
  "$GPRMC,123519,A,49,N,01131.000,E,022.4,084.4,230394,003.1,W*79".

Definition gsa_line : string :=
  "$GPGSA,A,3,04,05,,09,12,,,24,,,,,2.5,1.3,2.1*39".

Definition bad_checksum_line : string :=
  "$GPGGA,123519,4916.45,N,12311.12,W,1,08,0.9,545.4,M,46.9,M,,*00".

Definition gga_msg (lat_text : string) : msg :=
  MsgGGA {| gga_lat := lat_text; gga_lat_dir := "N";
            gga_lon := "12311.12"; gga_lon_dir := "W";
            gga_alt := Raise AttributeError;
            gga_timestamp := Time 12 35 19 |}.

Definition rmc_msg (status lat_text : string) : RMC :=
  {| rmc_lat := lat_text; rmc_lat_dir := "N";
     rmc_lon := "01131.000"; rmc_lon_dir := "E";
     rmc_status := status;
     rmc_datestamp := Date 1994 3 23;
     rmc_timestamp := Time 12 35 19 |}.

Definition sample_parse (line_str : string) : parse_result :=
  if line_str =? gga_line then Parsed (gga_msg "4916.45")
  else if line_str =? rmc_far_north_line then Parsed (MsgRMC (rmc_msg "A" "9959.99"))
  else if line_str =? rmc_active_line then Parsed (MsgRMC (rmc_msg "A" "4807.038"))
  else if line_str =? rmc_void_line then Parsed (MsgRMC (rmc_msg "V" "4807.038"))
  else if line_str =? rmc_short_lat_line then Parsed (MsgRMC (rmc_msg "A" "49"))
  else if line_str =? gsa_line then Parsed MsgOther
  else if line_str =? bad_checksum_line then ChecksumError
  else ParseError.

Definition sample_now : struct_time :=
  {| tm_year := 2024; tm_mon := 5; tm_mday := 17;
     tm_hour := 9; tm_min := 30; tm_sec := 0;
     tm_wday := 4; tm_yday := 138; tm_isdst := 0 |}.

(** A clock whose [mktime] counts the seconds of the day of the tuple
    and refuses years before 1970. *)
Definition sample_tm : time_module :=
  {| localtime := sample_now;
     mktime := fun t =>
       if (tm_year t <? 1970)%Z then Raise OverflowError
       else Ok (inject_Z (3600 * tm_hour t + 60 * tm_min t + tm_sec t)) |}.

Definition serial_ok (port : string) (baud : Z) (timeout : Q) : exc Serial :=
  Ok {| is_open := true |}.

Definition serial_absent (port : string) (baud : Z) (timeout : Q) : exc Serial :=
  Raise SerialException.

Definition ascii_decode (line : string) : string := line.

Definition fresh (history_size : nat) : GPSTracker :=
  init "/dev/ttyUSB0" 9600 1 history_size.

Definition pos1 : Position :=
  {| lat := 1; lon := 10; alt := None; timestamp := None |}.
Definition pos2 : Position :=
  {| lat := 2; lon := 20; alt := None; timestamp := None |}.
Definition pos3 : Position :=
  {| lat := 3; lon := 30; alt := None; timestamp := None |}.

Close Scope string_scope.

End Fixtures.

(* ================================================================== *)
(** ** Facts about the built-ins *)

Module PyFacts.
Import Py.

Open Scope Z_scope.

(** Every character of [s] passes the test [p]. *)
Fixpoint string_forall (p : ascii -> bool) (s : string) : bool :=
  match s with
  | EmptyString => true
  | String c r => p c && string_forall p r
  end.

Definition all_digits (s : string) : bool := string_forall is_digit s.

Definition no_dot (s : string) : bool :=
  string_forall (fun c => negb (Ascii.eqb c ".")) s.

Definition no_space (s : string) : bool :=
  string_forall (fun c => negb (is_space c)) s.

Lemma string_forall_app p a b :
  string_forall p (a ++ b) = string_forall p a && string_forall p b.
Proof.
  induction a as [|c a IH]; simpl; [reflexivity|].
  rewrite IH. apply andb_assoc.
Qed.

Lemma string_forall_weaken (p q : ascii -> bool) s :
  (forall c, p c = true -> q c = true) ->
  string_forall p s = true -> string_forall q s = true.
Proof.
  intros Hpq. induction s as [|c r IH]; simpl; [reflexivity|].
  intros H. apply andb_true_iff in H as [Hc Hr].
  rewrite (Hpq c Hc), (IH Hr). reflexivity.
Qed.

Lemma is_digit_range c :
  is_digit c = true -> (48 <= nat_of_ascii c <= 57)%nat.
Proof.
  unfold is_digit. intros H. apply andb_true_iff in H as [H1 H2].
  apply Nat.leb_le in H1. apply Nat.leb_le in H2. lia.
Qed.

Lemma digit_not_space c : is_digit c = true -> negb (is_space c) = true.
Proof.
  intros H. apply is_digit_range in H. unfold is_space.
  apply negb_true_iff, orb_false_iff. split; apply andb_false_iff.
  - right. apply Nat.leb_gt. lia.
  - right. apply Nat.leb_gt. lia.
Qed.

Lemma digit_not_dot c : is_digit c = true -> negb (Ascii.eqb c ".") = true.
Proof.
  intros H. apply negb_true_iff, Ascii.eqb_neq. intros ->. discriminate H.
Qed.

Lemma all_digits_no_dot s : all_digits s = true -> no_dot s = true.
Proof. apply string_forall_weaken, digit_not_dot. Qed.

Lemma all_digits_no_space s : all_digits s = true -> no_space s = true.
Proof. apply string_forall_weaken, digit_not_space. Qed.

Lemma digit_val_range c : is_digit c = true -> 0 <= digit_val c <= 9.
Proof. intros H. apply is_digit_range in H. unfold digit_val. lia. Qed.

(** *** Slices *)

Lemma len_app a b : len (a ++ b) = len a + len b.
Proof.
  unfold len. induction a as [|c a IH]; simpl String.length; [lia|].
  rewrite !Nat2Z.inj_succ. lia.
Qed.

Lemma append_assoc (a b c : string) : ((a ++ b) ++ c = a ++ (b ++ c))%string.
Proof. induction a as [|x a IH]; cbn [append]; [|rewrite IH]; reflexivity. Qed.

Lemma len_nonneg s : 0 <= len s.
Proof. unfold len. lia. Qed.

Lemma take_app a b : take (String.length a) (a ++ b) = a.
Proof. induction a as [|c a IH]; simpl; [destruct b|rewrite IH]; reflexivity. Qed.

Lemma drop_app a b : drop (String.length a) (a ++ b) = b.
Proof. induction a as [|c a IH]; simpl; [destruct b|rewrite IH]; reflexivity. Qed.

Lemma slice_to_app a b : slice_to (a ++ b) (len a) = a.
Proof.
  unfold slice_to, slice_index. pose proof (len_nonneg a) as H.
  destruct (len a <? 0) eqn:E; [apply Z.ltb_lt in E; lia|].
  unfold len. rewrite Nat2Z.id. apply take_app.
Qed.

Lemma slice_from_app a b : slice_from (a ++ b) (len a) = b.
Proof.
  unfold slice_from, slice_index. pose proof (len_nonneg a) as H.
  destruct (len a <? 0) eqn:E; [apply Z.ltb_lt in E; lia|].
  unfold len. rewrite Nat2Z.id. apply drop_app.
Qed.

(** *** [find] *)

Lemma find_from_app_char c a r i :
  string_forall (fun x => negb (Ascii.eqb x c)) a = true ->
  find_from c (a ++ String c r) i = i + len a.
Proof.
  revert i. induction a as [|x a IH]; simpl; intros i H.
  - rewrite Ascii.eqb_refl. unfold len. simpl. lia.
  - apply andb_true_iff in H as [Hx Ha]. apply negb_true_iff in Hx.
    rewrite Hx, (IH _ Ha). unfold len. simpl String.length. lia.
Qed.

Lemma find_dot_app a r : no_dot a = true -> find "." (a ++ String "." r) = len a.
Proof. intros H. unfold find. rewrite find_from_app_char by exact H. lia. Qed.

(** *** [strip] *)

Lemma lstrip_no_space s : no_space s = true -> lstrip s = s.
Proof.
  destruct s as [|c r]; simpl; [reflexivity|].
  intros H. apply andb_true_iff in H as [Hc _]. apply negb_true_iff in Hc.
  rewrite Hc. reflexivity.
Qed.

Lemma rstrip_no_space s : no_space s = true -> rstrip s = s.
Proof.
  induction s as [|c r IH]; simpl; [reflexivity|].
  intros H. apply andb_true_iff in H as [Hc Hr]. apply negb_true_iff in Hc.
  rewrite (IH Hr), Hc. destruct r; reflexivity.
Qed.

Lemma strip_no_space s : no_space s = true -> strip s = s.
Proof.
  intros H. unfold strip. rewrite (lstrip_no_space _ H). apply rstrip_no_space, H.
Qed.

(** *** Reading digits *)

Lemma read_digits_digit c r acc n :
  is_digit c = true ->
  read_digits (String c r) acc n = read_digits r (10 * acc + digit_val c) (S n).
Proof. intros H. cbn [read_digits]. rewrite H. reflexivity. Qed.

Lemma all_digits_cons c r :
  all_digits (String c r) = true -> is_digit c = true /\ all_digits r = true.
Proof. intros H. apply andb_true_iff in H. exact H. Qed.

Lemma len_cons c r : len (String c r) = len r + 1.
Proof. unfold len. cbn [String.length]. lia. Qed.

Lemma read_digits_all s : forall acc n,
  all_digits s = true ->
  read_digits s acc n =
    (acc * 10 ^ len s + digits_val s, (n + String.length s)%nat, EmptyString).
Proof.
  unfold digits_val.
  induction s as [|c r IH]; intros acc n H.
  - cbn [read_digits fst String.length]. change (len "") with 0.
    rewrite Z.pow_0_r, Z.mul_1_r, Z.add_0_r, Nat.add_0_r. reflexivity.
  - apply all_digits_cons in H as [Hc Hr].
    rewrite !(read_digits_digit _ _ _ _ Hc).
    rewrite (IH _ _ Hr), (IH (10 * 0 + digit_val c) 1%nat Hr).
    cbn [fst String.length]. rewrite len_cons, Z.pow_add_r, Z.pow_1_r
      by (try apply len_nonneg; lia).
    apply (f_equal2 pair); [apply (f_equal2 pair)|reflexivity]; lia.
Qed.

Lemma read_digits_app ds r acc n :
  all_digits ds = true ->
  read_digits (ds ++ r) acc n =
    read_digits r (acc * 10 ^ len ds + digits_val ds) (n + String.length ds)%nat.
Proof.
  revert acc n. unfold digits_val.
  induction ds as [|c ds IH]; intros acc n H.
  - cbn [append read_digits fst String.length]. change (len "") with 0.
    rewrite Z.pow_0_r, Z.mul_1_r, Z.add_0_r, Nat.add_0_r. reflexivity.
  - apply all_digits_cons in H as [Hc Hr].
    cbn [append]. rewrite !(read_digits_digit _ _ _ _ Hc).
    rewrite (IH _ _ Hr).
    rewrite (read_digits_all _ (10 * 0 + digit_val c) 1%nat Hr).
    cbn [fst String.length]. rewrite len_cons, Z.pow_add_r, Z.pow_1_r
      by (try apply len_nonneg; lia).
    f_equal; [unfold digits_val; ring | lia].
Qed.

Lemma digits_val_app a b :
  all_digits a = true -> all_digits b = true ->
  digits_val (a ++ b) = digits_val a * 10 ^ len b + digits_val b.
Proof.
  intros Ha Hb. unfold digits_val at 1.
  rewrite (read_digits_app _ _ _ _ Ha), (read_digits_all _ _ _ Hb).
  cbn [fst]. change (digits_val "") with 0. lia.
Qed.

Lemma digits_val_nonneg s : all_digits s = true -> 0 <= digits_val s.
Proof.
  unfold digits_val.
  assert (G : forall acc n, 0 <= acc -> all_digits s = true ->
                            0 <= fst (fst (read_digits s acc n))).
  { induction s as [|c r IH]; intros acc n Hacc H; [exact Hacc|].
    apply all_digits_cons in H as [Hc Hr]. rewrite (read_digits_digit _ _ _ _ Hc).
    apply IH; [|exact Hr]. pose proof (digit_val_range _ Hc). lia. }
  intros H. apply G; [lia|exact H].
Qed.

(** *** [float] on plain decimal text *)

Definition no_c_space (s : string) : bool :=
  string_forall (fun c => negb (is_c_space c)) s.

Definition no_underscore (s : string) : bool :=
  string_forall (fun c => negb (Ascii.eqb c "_")) s.

Lemma digit_not_c_space c : is_digit c = true -> negb (is_c_space c) = true.
Proof.
  intros H. apply is_digit_range in H. unfold is_c_space.
  apply negb_true_iff, orb_false_iff. split.
  - apply andb_false_iff. right. apply Nat.leb_gt. lia.
  - apply Nat.eqb_neq. lia.
Qed.

Lemma digit_not_underscore c : is_digit c = true -> negb (Ascii.eqb c "_") = true.
Proof.
  intros H. apply negb_true_iff, Ascii.eqb_neq. intros ->. discriminate H.
Qed.

Lemma all_digits_no_c_space s : all_digits s = true -> no_c_space s = true.
Proof. apply string_forall_weaken, digit_not_c_space. Qed.

Lemma all_digits_no_underscore s : all_digits s = true -> no_underscore s = true.
Proof. apply string_forall_weaken, digit_not_underscore. Qed.

Lemma lstrip_by_none p s :
  string_forall (fun c => negb (p c)) s = true -> lstrip_by p s = s.
Proof.
  destruct s as [|c r]; cbn [lstrip_by string_forall]; [reflexivity|].
  intros H. apply andb_true_iff in H as [Hc _]. apply negb_true_iff in Hc.
  rewrite Hc. reflexivity.
Qed.

Lemma rstrip_by_none p s :
  string_forall (fun c => negb (p c)) s = true -> rstrip_by p s = s.
Proof.
  induction s as [|c r IH]; cbn [rstrip_by string_forall]; [reflexivity|].
  intros H. apply andb_true_iff in H as [Hc Hr]. apply negb_true_iff in Hc.
  rewrite (IH Hr), Hc. destruct r; reflexivity.
Qed.

Lemma strip_c_none s : no_c_space s = true -> strip_by is_c_space s = s.
Proof.
  intros H. unfold strip_by. rewrite (lstrip_by_none _ _ H).
  apply rstrip_by_none, H.
Qed.

Lemma drop_underscores_none s : forall prev,
  no_underscore s = true -> Ascii.eqb prev "_" = false ->
  drop_underscores prev s = Some s.
Proof.
  induction s as [|c r IH]; intros prev H Hprev.
  - cbn [drop_underscores]. rewrite Hprev. reflexivity.
  - cbn [no_underscore string_forall] in H. apply andb_true_iff in H as [Hc Hr].
    apply negb_true_iff in Hc. cbn [drop_underscores].
    rewrite Hc, Hprev. cbn [andb]. rewrite (IH c Hr Hc). reflexivity.
Qed.

(** On text without white space and underscores [float] is the plain
    numeral. *)
Lemma float_plain s :
  no_c_space s = true -> no_underscore s = true -> float s = float_literal s.
Proof.
  intros Hs Hu. unfold float.
  rewrite (strip_c_none _ Hs), (drop_underscores_none _ Ascii.zero Hu eq_refl).
  reflexivity.
Qed.

Lemma read_sign_digit c r :
  is_digit c = true -> read_sign (String c r) = (false, String c r).
Proof.
  destruct c as [[] [] [] [] [] [] [] []]; intros H; try discriminate H; reflexivity.
Qed.

Lemma scale10_int m : scale10 m 0 = inject_Z m.
Proof. unfold scale10. cbn [Z.leb Z.compare Z.pow]. rewrite Z.mul_1_r. reflexivity. Qed.

Lemma scale10_frac m k :
  0 <= k -> (scale10 m (- k) == inject_Z m / inject_Z (10 ^ k))%Q.
Proof.
  intros Hk. unfold scale10.
  destruct (0 <=? - k) eqn:E.
  - apply Z.leb_le in E. assert (k = 0) as -> by lia.
    cbn [Z.opp Z.pow]. rewrite Z.mul_1_r. change (inject_Z (10 ^ 0)) with 1%Q.
    field.
  - rewrite Z.opp_involutive, Qmake_Qdiv, Z2Pos.id; [reflexivity|].
    apply Z.pow_pos_nonneg; lia.
Qed.

(** A non-empty run of digits reads as its value. *)
Lemma float_digits s :
  all_digits s = true -> truthy s = true ->
  float s = Ok (inject_Z (digits_val s)).
Proof.
  intros Hd Hne.
  rewrite (float_plain _ (all_digits_no_c_space _ Hd) (all_digits_no_underscore _ Hd)).
  unfold float_literal.
  destruct s as [|c r]; [discriminate Hne|].
  destruct (all_digits_cons _ _ Hd) as [Hc _].
  rewrite (read_sign_digit _ _ Hc), (read_digits_all _ _ _ Hd).
  cbn [String.length Nat.add bind read_exponent Z.of_nat Z.sub Z.opp Z.add].
  rewrite scale10_int, Z.mul_0_l, Z.add_0_l. reflexivity.
Qed.

(** Digits, a point and digits read as the decimal they spell. *)
Lemma float_decimal ip fp :
  all_digits ip = true -> all_digits fp = true -> truthy ip = true ->
  float (ip ++ String "." fp)
  = Ok (scale10 (digits_val (ip ++ fp)) (- len fp)).
Proof.
  intros Hi Hf Hne.
  assert (Hns : no_c_space (ip ++ String "." fp) = true).
  { unfold no_c_space. rewrite string_forall_app. cbn [string_forall].
    fold (no_c_space ip) (no_c_space fp).
    rewrite (all_digits_no_c_space _ Hi), (all_digits_no_c_space _ Hf). reflexivity. }
  assert (Hnu : no_underscore (ip ++ String "." fp) = true).
  { unfold no_underscore. rewrite string_forall_app. cbn [string_forall].
    fold (no_underscore ip) (no_underscore fp).
    rewrite (all_digits_no_underscore _ Hi), (all_digits_no_underscore _ Hf).
    reflexivity. }
  rewrite (float_plain _ Hns Hnu). unfold float_literal.
  destruct ip as [|c r]; [discriminate Hne|].
  destruct (all_digits_cons _ _ Hi) as [Hc _].
  cbn [append]. rewrite (read_sign_digit _ _ Hc).
  change (String c (r ++ String "." fp))%string with (String c r ++ String "." fp)%string.
  rewrite (read_digits_app _ _ _ _ Hi).
  cbn [read_digits is_digit nat_of_ascii]. 
  change (is_digit ".") with false. cbv iota.
  rewrite (read_digits_all _ _ _ Hf).
  cbn [String.length Nat.add bind read_exponent].
  change (String c (r ++ fp))%string with (String c r ++ fp)%string.
  rewrite (digits_val_app _ _ Hi Hf), Z.mul_0_l, Z.add_0_l.
  reflexivity.
Qed.

Close Scope Z_scope.

End PyFacts.

(* ================================================================== *)
(** ** The coordinate converter *)

Module NmeaFacts.
Import Py Nmea PyFacts.

Open Scope Z_scope.

(** Lines 216 to 221 of the source on a given degree text and minute
    text. *)
Definition decimal_of_parts (deg_text min_text direction : string) : exc Q :=
  bind (float deg_text) (fun degrees =>
  bind (float min_text) (fun minutes =>
    let dec := (degrees + minutes / 60)%Q in
    Ok (if south_or_west direction then Qopp dec else dec))).

Lemma nmea_to_decimal_parts coord_str direction :
  truthy coord_str = true ->
  _nmea_to_decimal coord_str direction
  = decimal_of_parts (slice_to coord_str (deg_len coord_str))
                     (slice_from coord_str (deg_len coord_str)) direction.
Proof. intros H. unfold _nmea_to_decimal. rewrite H. reflexivity. Qed.

Lemma find_some_truthy c s : 0 <= find c s -> truthy s = true.
Proof. destruct s; [cbn; lia | reflexivity]. Qed.

Lemma deg_len_dot coord_str :
  0 <= find "." coord_str ->
  deg_len coord_str
  = if find "." coord_str <=? 4 then 2 else find "." coord_str - 2.
Proof.
  intros H. unfold deg_len.
  destruct (find "." coord_str =? -1) eqn:E; [apply Z.eqb_eq in E; lia|reflexivity].
Qed.

(** The split of a string shaped as degree text, two minute characters,
    a point and the rest. *)
Lemma split_shape dd mm rest :
  no_dot dd = true -> no_dot mm = true ->
  (2 <= String.length dd)%nat -> String.length mm = 2%nat ->
  let coord_str := (dd ++ mm ++ String "." rest)%string in
  find "." coord_str = len dd + 2 /\
  deg_len coord_str = len dd /\
  slice_to coord_str (deg_len coord_str) = dd /\
  slice_from coord_str (deg_len coord_str) = (mm ++ String "." rest)%string.
Proof.
  intros Hdd Hmm Hld Hlm coord_str.
  assert (Hfind : find "." coord_str = len dd + 2).
  { unfold coord_str. rewrite <- append_assoc.
    rewrite find_dot_app.
    - rewrite len_app. unfold len at 2. rewrite Hlm. reflexivity.
    - unfold no_dot. rewrite string_forall_app. fold (no_dot dd) (no_dot mm).
      rewrite Hdd, Hmm. reflexivity. }
  assert (Hlen : 2 <= len dd) by (unfold len; lia).
  assert (Hdeg : deg_len coord_str = len dd).
  { rewrite deg_len_dot by lia. rewrite Hfind.
    destruct (len dd + 2 <=? 4) eqn:E.
    - apply Z.leb_le in E. lia.
    - lia. }
  rewrite Hdeg. unfold coord_str.
  rewrite slice_to_app, slice_from_app. auto.
Qed.

Lemma south_or_west_spec direction :
  south_or_west direction = true <-> direction = "S"%string \/ direction = "W"%string.
Proof.
  unfold south_or_west. rewrite orb_true_iff, !String.eqb_eq. reflexivity.
Qed.

(** The converter on a well-formed angle: an exact value. *)
Lemma nmea_to_decimal_shape dd mm ff direction :
  all_digits dd = true -> all_digits mm = true -> all_digits ff = true ->
  (2 <= String.length dd)%nat -> String.length mm = 2%nat ->
  _nmea_to_decimal (dd ++ mm ++ String "." ff) direction
  = Ok (let dec := (inject_Z (digits_val dd)
                    + scale10 (digits_val (mm ++ ff)) (- len ff) / 60)%Q in
        if south_or_west direction then Qopp dec else dec).
Proof.
  intros Hdd Hmm Hff Hld Hlm.
  destruct (split_shape dd mm ff (all_digits_no_dot _ Hdd) (all_digits_no_dot _ Hmm)
              Hld Hlm) as (_ & _ & Hto & Hfrom).
  assert (Hne : truthy dd = true) by (destruct dd; [cbn in Hld; lia | reflexivity]).
  assert (Hnm : truthy mm = true) by (destruct mm; [discriminate Hlm | reflexivity]).
  rewrite nmea_to_decimal_parts by (destruct dd; [discriminate Hne | reflexivity]).
  rewrite Hto, Hfrom. unfold decimal_of_parts.
  rewrite (float_digits dd Hdd Hne), (float_decimal mm ff Hmm Hff Hnm).
  reflexivity.
Qed.

(** The minutes [MM.FFFF] as a rational. *)
Lemma minutes_value mm ff :
  all_digits mm = true -> all_digits ff = true ->
  (scale10 (digits_val (mm ++ ff)) (- len ff)
   == inject_Z (digits_val mm) + inject_Z (digits_val ff) / inject_Z (10 ^ len ff))%Q.
Proof.
  intros Hmm Hff.
  rewrite scale10_frac by apply len_nonneg.
  rewrite (digits_val_app _ _ Hmm Hff), inject_Z_plus, inject_Z_mult.
  assert (Hp : 0 < 10 ^ len ff) by (apply Z.pow_pos_nonneg; [lia | apply len_nonneg]).
  assert (Hq : ~ (inject_Z (10 ^ len ff) == 0)%Q).
  { intros E. unfold Qeq in E. cbn in E. lia. }
  field. exact Hq.
Qed.

(** *** The time stamp functions return *)

Lemma try_except_returns {A : Type} (body : exc A) (handler : exn -> exc A) :
  (forall e, returns (handler e)) -> returns (try_except body handler).
Proof.
  intros H. destruct body as [a|e]; cbn [try_except]; [exists a; reflexivity | apply H].
Qed.

Lemma time_to_epoch_returns tm nmea_time : returns (_nmea_time_to_epoch tm nmea_time).
Proof.
  unfold _nmea_time_to_epoch.
  destruct (is_none_time nmea_time); [exists None; reflexivity|].
  apply try_except_returns. intros _. exists None. reflexivity.
Qed.

Lemma datetime_to_epoch_returns tm datestamp timestamp :
  returns (_nmea_datetime_to_epoch tm datestamp timestamp).
Proof.
  unfold _nmea_datetime_to_epoch.
  destruct (is_none_date datestamp || is_none_time timestamp)%bool;
    [apply time_to_epoch_returns|].
  apply try_except_returns. intros _. exists None. reflexivity.
Qed.

Close Scope Z_scope.

End NmeaFacts.

(* ================================================================== *)
(** ** Properties of the converter *)

Import Py Nmea PyFacts NmeaFacts.

(** C3, as stated, at a string whose point is at index 3: the claim gives
    the one leading character as degrees, the code reads two. *)
Lemma deg_len_short_counterexample :
  find "." "916.45" = 3%Z /\
  deg_len "916.45" = 2%Z /\
  deg_len "916.45" <> (find "." "916.45" - 2)%Z /\
  slice_to "916.45" (deg_len "916.45") = "91"%string /\
  slice_from "916.45" (deg_len "916.45") = "6.45"%string /\
  _nmea_to_decimal "916.45" "N" = decimal_of_parts "91" "6.45" "N" /\
  _nmea_to_decimal "916.45" "N" <> decimal_of_parts "9" "16.45" "N".
Proof.
  repeat split; try reflexivity; vm_compute; discriminate.
Qed.

(** C3 (amended): for every coordinate string whose decimal point is at
    index 4 or more, the degree part is exactly the [dot_pos - 2] leading
    characters and the minutes are the remainder, whatever the length of
    the string (2 characters for a latitude-shaped string, 3 for a
    longitude-shaped one); when the point is at an index below 4 the
    degree part is the first 2 characters. *)
Theorem deg_len_by_dot (coord_str direction : string) (dot_pos : Z) :
  find "." coord_str = dot_pos -> (0 <= dot_pos)%Z ->
  ((4 <= dot_pos)%Z ->
     deg_len coord_str = (dot_pos - 2)%Z /\
     _nmea_to_decimal coord_str direction
     = decimal_of_parts (take (Z.to_nat (dot_pos - 2)) coord_str)
                        (drop (Z.to_nat (dot_pos - 2)) coord_str) direction) /\
  ((dot_pos < 4)%Z ->
     deg_len coord_str = 2%Z /\
     _nmea_to_decimal coord_str direction
     = decimal_of_parts (take 2 coord_str) (drop 2 coord_str) direction).
Proof.
  intros Hfind Hpos.
  assert (Hne : truthy coord_str = true).
  { apply (find_some_truthy "."). rewrite Hfind. exact Hpos. }
  assert (Hdeg := deg_len_dot coord_str). rewrite Hfind in Hdeg.
  specialize (Hdeg Hpos).
  rewrite (nmea_to_decimal_parts _ direction Hne).
  unfold slice_to, slice_from, slice_index.
  split; intros Hcase; rewrite Hdeg.
  - destruct (dot_pos <=? 4)%Z eqn:E.
    + apply Z.leb_le in E. assert (dot_pos = 4%Z) as -> by lia.
      split; reflexivity.
    + destruct (dot_pos - 2 <? 0)%Z eqn:E2; [apply Z.ltb_lt in E2; lia|].
      split; reflexivity.
  - destruct (dot_pos <=? 4)%Z eqn:E; [|apply Z.leb_gt in E; lia].
    split; reflexivity.
Qed.

Lemma deg_len_by_dot_witness :
  deg_len "4916.45" = 2%Z /\
  deg_len "12311.12" = 3%Z /\
  _nmea_to_decimal "12311.12" "W" = decimal_of_parts "123" "11.12" "W".
Proof.
  assert (H4 : (0 <= 4)%Z /\ (4 <= 4)%Z) by lia.
  assert (H5 : (0 <= 5)%Z /\ (4 <= 5)%Z) by lia.
  destruct (deg_len_by_dot "4916.45" "N" 4 eq_refl (proj1 H4)) as [Hlat _].
  destruct (deg_len_by_dot "12311.12" "W" 5 eq_refl (proj1 H5)) as [Hlon _].
  destruct (Hlat (proj2 H4)) as [Hlat_len _].
  destruct (Hlon (proj2 H5)) as [Hlon_len Hlon_val].
  split; [exact Hlat_len | split; [exact Hlon_len | exact Hlon_val]].
Defined.

(** C6: on every well-formed angle (degree digits, two minute digits, a
    point, fraction digits) the converter returns degrees + minutes/60,
    negated exactly for the hemispheres S and W; the two fixtures of the
    specification evaluate to 49.274166... and -123.185333.... *)
Theorem nmea_to_decimal_valid :
  (forall dd mm ff direction : string,
     all_digits dd = true -> all_digits mm = true -> all_digits ff = true ->
     (2 <= String.length dd)%nat -> String.length mm = 2%nat ->
     exists dec : Q,
       _nmea_to_decimal (dd ++ mm ++ String "." ff) direction = Ok dec /\
       let degrees := inject_Z (digits_val dd) in
       let minutes := inject_Z (digits_val mm)
                      + inject_Z (digits_val ff) / inject_Z (10 ^ len ff) in
       dec == (if south_or_west direction
               then - (degrees + minutes / 60)
               else degrees + minutes / 60)) /\
  (forall direction : string,
     south_or_west direction = true
     <-> direction = "S"%string \/ direction = "W"%string) /\
  (exists dec : Q,
     _nmea_to_decimal "4916.45" "N" = Ok dec /\
     dec == 49 + (1645 # 100) / 60 /\
     49274166 # 1000000 < dec /\ dec < 49274167 # 1000000) /\
  (exists dec : Q,
     _nmea_to_decimal "12311.12" "W" = Ok dec /\
     dec == - (123 + (1112 # 100) / 60) /\
     - (123185334 # 1000000) < dec /\ dec < - (123185333 # 1000000)).
Proof.
  split; [|split; [|split]].
  - intros dd mm ff direction Hdd Hmm Hff Hld Hlm.
    eexists. split; [apply nmea_to_decimal_shape; assumption|].
    cbv zeta. pose proof (minutes_value _ _ Hmm Hff) as Hmin.
    destruct (south_or_west direction); rewrite Hmin; reflexivity.
  - apply south_or_west_spec.
  - eexists. split; [vm_compute; reflexivity|].
    repeat split; vm_compute; reflexivity.
  - eexists. split; [vm_compute; reflexivity|].
    repeat split; vm_compute; reflexivity.
Qed.

Lemma nmea_to_decimal_valid_witness :
  exists dec : Q,
    _nmea_to_decimal "12311.12" "W" = Ok dec /\
    dec == - (inject_Z 123 + (inject_Z 11 + inject_Z 12 / inject_Z 100) / 60).
Proof.
  destruct (proj1 nmea_to_decimal_valid "123"%string "11"%string "12"%string "W"%string
              eq_refl eq_refl eq_refl (le_S _ _ (le_n 2)) eq_refl)
    as [dec [Hdec Hval]].
  exists dec. split; [exact Hdec | exact Hval].
Defined.

(** C7: both time stamp functions fail soft.  Neither ever raises; the
    result is [None] whenever an attribute read or [mktime] raises, and
    otherwise what [mktime] returned; the date and time function is the
    time-only one when the date or the time is [None]. *)
Theorem epoch_fail_soft (tm : time_module) :
  (forall nmea_time, returns (_nmea_time_to_epoch tm nmea_time)) /\
  (forall datestamp timestamp,
     returns (_nmea_datetime_to_epoch tm datestamp timestamp)) /\
  (forall nmea_time,
     match nmea_time with
     | NoTime | RawTime _ => _nmea_time_to_epoch tm nmea_time = Ok None
     | Time hour minute second =>
         match mktime tm (today_tuple (localtime tm) hour minute second) with
         | Ok epoch => _nmea_time_to_epoch tm nmea_time = Ok (Some epoch)
         | Raise _ => _nmea_time_to_epoch tm nmea_time = Ok None
         end
     end) /\
  (forall datestamp timestamp,
     match datestamp, timestamp with
     | NoDate, _ | _, NoTime =>
         _nmea_datetime_to_epoch tm datestamp timestamp
         = _nmea_time_to_epoch tm timestamp
     | RawDate _, _ | _, RawTime _ =>
         _nmea_datetime_to_epoch tm datestamp timestamp = Ok None
     | Date year month day, Time hour minute second =>
         match mktime tm (date_tuple year month day hour minute second) with
         | Ok epoch => _nmea_datetime_to_epoch tm datestamp timestamp = Ok (Some epoch)
         | Raise _ => _nmea_datetime_to_epoch tm datestamp timestamp = Ok None
         end
     end) /\
  (forall timestamp,
     _nmea_datetime_to_epoch tm NoDate timestamp = _nmea_time_to_epoch tm timestamp /\
     _nmea_datetime_to_epoch tm NoDate NoTime = Ok None).
Proof.
  split; [|split; [|split; [|split]]].
  - intros t. apply time_to_epoch_returns.
  - intros d t. apply datetime_to_epoch_returns.
  - intros [|h m s|text]; try reflexivity.
    unfold _nmea_time_to_epoch. cbn [is_none_time time_attrs bind].
    destruct (mktime tm (today_tuple (localtime tm) h m s)); reflexivity.
  - intros [|y mo d|dtext] [|h m s|ttext]; try reflexivity.
    unfold _nmea_datetime_to_epoch.
    cbn [is_none_date is_none_time orb date_attrs time_attrs bind].
    destruct (mktime tm (date_tuple y mo d h m s)); reflexivity.
  - intros t. split; reflexivity.
Qed.

(* ================================================================== *)
(** ** Properties of the distance *)

Module GeoFacts.
Import Geo.

Open Scope R_scope.

(** The quantity under the square roots of [haversine_distance_m]. *)
Definition haversine_a (lat1 lon1 lat2 lon2 : R) : R :=
  sin (radians (lat2 - lat1) / 2) ^ 2
  + cos (radians lat1) * cos (radians lat2) * (sin (radians (lon2 - lon1) / 2) ^ 2).

Lemma haversine_unfold lat1 lon1 lat2 lon2 :
  haversine_distance_m (lat1, lon1) (lat2, lon2)
  = 6371000 * (2 * atan2 (sqrt (haversine_a lat1 lon1 lat2 lon2))
                         (sqrt (1 - haversine_a lat1 lon1 lat2 lon2))).
Proof. reflexivity. Qed.

Lemma sin_half_radians_swap x y :
  sin (radians (x - y) / 2) ^ 2 = sin (radians (y - x) / 2) ^ 2.
Proof.
  replace (radians (x - y) / 2) with (- (radians (y - x) / 2))
    by (unfold radians; field).
  rewrite sin_neg. ring.
Qed.

Lemma haversine_a_sym lat1 lon1 lat2 lon2 :
  haversine_a lat1 lon1 lat2 lon2 = haversine_a lat2 lon2 lat1 lon1.
Proof.
  unfold haversine_a.
  rewrite (sin_half_radians_swap lat2 lat1), (sin_half_radians_swap lon2 lon1).
  ring.
Qed.

Close Scope R_scope.

End GeoFacts.

Import Geo GeoFacts.

(** C9: the haversine distance is symmetric in its two points. *)
Theorem haversine_distance_m_sym (p1 p2 : R * R) :
  haversine_distance_m p1 p2 = haversine_distance_m p2 p1.
Proof.
  destruct p1 as [lat1 lon1], p2 as [lat2 lon2].
  rewrite !haversine_unfold, (haversine_a_sym lat1 lon1 lat2 lon2).
  reflexivity.
Qed.

(* ================================================================== *)
(** ** Facts about the position store and the loop *)

Module TrackerFacts.
Import Py Nmea Tracker.
Import List ListNotations.

(** *** The history *)

(** [l[-1]] when [l] is not empty. *)
Fixpoint last_item (l : list Position) : option Position :=
  match l with
  | [] => None
  | [x] => Some x
  | _ :: r => last_item r
  end.

(** Recording a run of positions, oldest first. *)
Definition record_all (ps : list Position) (self : GPSTracker) : GPSTracker :=
  fold_left (fun st pos => record pos st) ps self.

Lemma last_item_app l x : last_item (l ++ [x]) = Some x.
Proof.
  induction l as [|a l IH]; [reflexivity|].
  cbn [app last_item]. rewrite IH. destruct (l ++ [x]) eqn:E; [|reflexivity].
  destruct l; discriminate E.
Qed.


Lemma append_items d x :
  items (append d x)
  = if (maxlen d <? length (items d ++ [x]))%nat then tl (items d ++ [x])
    else items d ++ [x].
Proof. reflexivity. Qed.

Lemma append_maxlen d x : maxlen (append d x) = maxlen d.
Proof. reflexivity. Qed.


Lemma append_bounded d x :
  (length (items d) <= maxlen d)%nat ->
  (length (items (append d x)) <= maxlen d)%nat.
Proof.
  intros H. rewrite append_items.
  destruct (maxlen d <? length (items d ++ [x]))%nat eqn:E.
  - destruct (items d ++ [x]) as [|a r] eqn:El; [cbn; lia|].
    assert (Hl : length (items d ++ [x]) = S (length r)) by (rewrite El; reflexivity).
    rewrite length_app in Hl. cbn [length] in Hl. cbn [tl]. lia.
  - apply Nat.ltb_ge in E. exact E.
Qed.

Lemma skipn_S_tl {A : Type} (k : nat) (l : list A) : skipn (S k) l = tl (skipn k l).
Proof.
  revert l. induction k as [|k IH]; intros l.
  - destruct l; reflexivity.
  - destruct l as [|a l]; [reflexivity|].
    change (skipn (S (S k)) (a :: l)) with (skipn (S k) l).
    change (skipn (S k) (a :: l)) with (skipn k l). apply IH.
Qed.

(** One more item on a history that holds the newest [cap] of [ps]. *)
Lemma newest_step (cap : nat) (ps : list Position) (p : Position) :
  let l := skipn (length ps - cap) ps ++ [p] in
  (if (cap <? length l)%nat then tl l else l)
  = skipn (length (ps ++ [p]) - cap) (ps ++ [p]).
Proof.
  cbv zeta. rewrite !length_app, length_skipn. cbn [length].
  destruct (cap <? length ps - (length ps - cap) + 1)%nat eqn:E.
  - apply Nat.ltb_lt in E.
    replace (length ps + 1 - cap)%nat with (S (length ps - cap)) by lia.
    rewrite skipn_S_tl, skipn_app.
    replace (length ps - cap - length ps)%nat with O by lia.
    reflexivity.
  - apply Nat.ltb_ge in E.
    replace (length ps + 1 - cap)%nat with O by lia.
    replace (length ps - cap)%nat with O by lia.
    reflexivity.
Qed.

Lemma record_all_snoc ps p self :
  record_all (ps ++ [p]) self = record p (record_all ps self).
Proof. unfold record_all. rewrite fold_left_app. reflexivity. Qed.

Lemma record_all_maxlen ps self :
  maxlen (_history (record_all ps self)) = maxlen (_history self).
Proof.
  induction ps as [|p ps IH] using rev_ind; [reflexivity|].
  rewrite record_all_snoc. cbn [record _history]. rewrite append_maxlen. exact IH.
Qed.

(** From an empty history, the history holds the newest [maxlen]
    positions recorded, oldest first. *)
Lemma record_all_history ps self :
  items (_history self) = [] ->
  get_history (record_all ps self)
  = skipn (length ps - maxlen (_history self)) ps.
Proof.
  intros Hempty. unfold get_history.
  induction ps as [|p ps IH] using rev_ind.
  - cbn. exact Hempty.
  - rewrite record_all_snoc. cbn [record _history].
    rewrite append_items, record_all_maxlen, IH.
    apply newest_step.
Qed.

(** *** The loop *)

Section Loop.

Variable parse : string -> parse_result.
Variable tm : time_module.
Variable serial_Serial : string -> Z -> Q -> exc Serial.
Variable decode : string -> string.

(** A property of the history and the last position that recording
    keeps holds along the loop. *)
Variable P : deque -> option Position -> Prop.
Hypothesis P_record : forall d last pos, P d last -> P (append d pos) (Some pos).

Definition holds (self : GPSTracker) : Prop :=
  P (_history self) (_last_position self).

Lemma publish_holds pos self : holds self -> holds (publish pos self).
Proof.
  intros H. unfold publish.
  destruct (_callback (record pos self)) as [cb|]; [destruct (cb pos)|];
    exact (P_record _ _ pos H).
Qed.

Lemma iteration_holds r self :
  holds self -> holds (iteration parse tm decode r self).
Proof.
  intros H. unfold iteration. destruct r as [line|e]; [|exact H].
  destruct (negb (truthy line)); [exact H|].
  destruct (decode_line parse tm decode line) as [[pos|]|e]; try exact H.
  apply publish_holds, H.
Qed.

Lemma while_loop_holds events : forall self,
  holds self -> holds (while_loop parse tm decode events self).
Proof.
  induction events as [|ev rest IH]; intros self H; [exact H|].
  cbn [while_loop]. destruct (_stop_event self); [exact H|].
  destruct ev as [r|]; apply IH; [apply iteration_holds, H | exact H].
Qed.

Lemma read_loop_holds events self :
  holds self -> holds (_read_loop parse tm serial_Serial decode events self).
Proof.
  intros H. unfold _read_loop, _open_serial.
  destruct (ser_open self); cbn [bind].
  - apply (while_loop_holds events self H).
  - destruct (serial_Serial (serial_port self) (baudrate self) (timeout self)) as [ser|e];
      cbn [bind]; [|exact H].
    apply (while_loop_holds events (set_ser (Some ser) self) H).
Qed.

End Loop.

(** *** The positions a run records *)

Section Fixes.

Variable parse : string -> parse_result.
Variable tm : time_module.
Variable serial_Serial : string -> Z -> Q -> exc Serial.
Variable decode : string -> string.

(** The position one [readline] leads to, if any. *)
Definition fix_of (r : readline) : option Position :=
  match r with
  | ReadFails _ => None
  | Line line =>
      if negb (truthy line) then None
      else
        match decode_line parse tm decode line with
        | Ok (Some pos) => Some pos
        | Ok None | Raise _ => None
        end
  end.

(** The positions the loop records over the events, oldest first. *)
Fixpoint fixes (events : list event) (stopped : bool) : list Position :=
  match events with
  | [] => []
  | ev :: rest =>
      if stopped then []
      else
        match ev with
        | StopSet => fixes rest true
        | Read r =>
            match fix_of r with
            | Some pos => pos :: fixes rest false
            | None => fixes rest false
            end
        end
  end.

(** The part of the state behind [get_last] and [get_history]. *)
Definition store (self : GPSTracker) : deque * option Position :=
  (_history self, _last_position self).

Lemma record_all_store ps : forall a b,
  store a = store b -> store (record_all ps a) = store (record_all ps b).
Proof.
  induction ps as [|p ps IH]; intros a b H; [exact H|].
  cbn [record_all fold_left]. apply IH.
  unfold store in *. cbn [record _history _last_position].
  injection H as Hh _. rewrite Hh. reflexivity.
Qed.

Lemma publish_store pos self : store (publish pos self) = store (record pos self).
Proof.
  unfold publish. destruct (_callback (record pos self)) as [cb|]; [|reflexivity].
  destruct (cb pos); reflexivity.
Qed.

Lemma publish_stop_event pos self : _stop_event (publish pos self) = _stop_event self.
Proof.
  unfold publish. destruct (_callback (record pos self)) as [cb|]; [|reflexivity].
  destruct (cb pos); reflexivity.
Qed.

Lemma iteration_store r self :
  store (iteration parse tm decode r self)
  = store (match fix_of r with Some pos => record pos self | None => self end).
Proof.
  unfold iteration, fix_of. destruct r as [line|e]; [|reflexivity].
  destruct (negb (truthy line)); [reflexivity|].
  destruct (decode_line parse tm decode line) as [[pos|]|e]; try reflexivity.
  apply publish_store.
Qed.

Lemma iteration_stop_event r self :
  _stop_event (iteration parse tm decode r self) = _stop_event self.
Proof.
  unfold iteration. destruct r as [line|e]; [|reflexivity].
  destruct (negb (truthy line)); [reflexivity|].
  destruct (decode_line parse tm decode line) as [[pos|]|e]; try reflexivity.
  apply publish_stop_event.
Qed.

(** The loop leaves the store as recording its fixes in order does. *)
Lemma while_loop_store events : forall self,
  store (while_loop parse tm decode events self)
  = store (record_all (fixes events (_stop_event self)) self).
Proof.
  induction events as [|ev rest IH]; intros self; [reflexivity|].
  cbn [while_loop fixes]. destruct (_stop_event self) eqn:Hstop; [reflexivity|].
  destruct ev as [r|].
  - rewrite IH, iteration_stop_event, Hstop.
    pose proof (iteration_store r self) as Hit.
    destruct (fix_of r) as [pos|].
    + cbn [record_all fold_left]. apply record_all_store, Hit.
    + apply record_all_store, Hit.
  - rewrite IH. cbn [set_stop_event _stop_event].
    apply record_all_store. reflexivity.
Qed.

Lemma open_serial_frame self opened :
  _open_serial serial_Serial self = Ok opened ->
  store opened = store self /\ _stop_event opened = _stop_event self.
Proof.
  unfold _open_serial. destruct (ser_open self).
  - intros H. injection H as <-. auto.
  - destruct (serial_Serial (serial_port self) (baudrate self) (timeout self)) as [ser|e];
      cbn [bind]; [|discriminate].
    intros H. injection H as <-. auto.
Qed.

Lemma read_loop_store events self :
  returns (_open_serial serial_Serial self) ->
  store (_read_loop parse tm serial_Serial decode events self)
  = store (record_all (fixes events (_stop_event self)) self).
Proof.
  intros [opened Hopen]. unfold _read_loop. rewrite Hopen.
  destruct (open_serial_frame _ _ Hopen) as [Hstore Hstop].
  change (store (while_loop parse tm decode events opened)
          = store (record_all (fixes events (_stop_event self)) self)).
  rewrite while_loop_store, Hstop. apply record_all_store, Hstore.
Qed.

(** A run that decodes no fix leaves the store as it was. *)
Lemma read_loop_store_no_fix events self :
  fixes events (_stop_event self) = [] ->
  store (_read_loop parse tm serial_Serial decode events self) = store self.
Proof.
  intros Hnone.
  destruct (_open_serial serial_Serial self) as [opened|e] eqn:Hopen.
  - rewrite read_loop_store by (exists opened; exact Hopen).
    rewrite Hnone. reflexivity.
  - unfold _read_loop. rewrite Hopen. reflexivity.
Qed.

End Fixes.

End TrackerFacts.

(* ================================================================== *)
(** ** Facts about the decoder *)

Module DecoderFacts.
Import Py Nmea Tracker.

(** Lines 216 to 218 of the source: degrees + minutes/60 before the
    hemisphere sign. *)
Definition angle_magnitude (coord_str : string) : exc Q :=
  bind (float (slice_to coord_str (deg_len coord_str))) (fun degrees =>
  bind (float (slice_from coord_str (deg_len coord_str))) (fun minutes =>
    Ok (degrees + minutes / 60))).

(** The angle attributes [_read_loop] converts. *)
Definition angle_fields (m : msg) : option (string * string * string * string) :=
  match m with
  | MsgGGA g => Some (gga_lat g, gga_lat_dir g, gga_lon g, gga_lon_dir g)
  | MsgRMC r => Some (rmc_lat r, rmc_lat_dir r, rmc_lon r, rmc_lon_dir r)
  | MsgOther => None
  end.

Definition in_range (bound x : Q) : Prop := - bound <= x /\ x <= bound.

Lemma in_range_opp bound x : in_range bound (- x) <-> in_range bound x.
Proof.
  unfold in_range. split; intros [H1 H2]; split.
  - apply Qopp_le_compat in H2. rewrite Qopp_involutive in H2. exact H2.
  - apply Qopp_le_compat in H1. rewrite !Qopp_involutive in H1. exact H1.
  - apply Qopp_le_compat. exact H2.
  - apply Qopp_le_compat in H1. rewrite Qopp_involutive in H1. exact H1.
Qed.

Lemma in_range_signed bound (neg : bool) x :
  in_range bound (if neg then - x else x) <-> in_range bound x.
Proof. destruct neg; [apply in_range_opp | reflexivity]. Qed.

Lemma bind_ok {A B : Type} (m : exc A) (k : A -> exc B) (b : B) :
  bind m k = Ok b -> exists a, m = Ok a /\ k a = Ok b.
Proof. destruct m as [a|e]; [exists a; auto | discriminate]. Qed.

Lemma nmea_to_decimal_ok coord_str direction v :
  _nmea_to_decimal coord_str direction = Ok v ->
  truthy coord_str = true /\
  exists mag, angle_magnitude coord_str = Ok mag /\
              v = (if south_or_west direction then - mag else mag).
Proof.
  unfold _nmea_to_decimal, angle_magnitude.
  destruct (truthy coord_str); cbn [negb]; [|discriminate].
  intros H. split; [reflexivity|].
  apply bind_ok in H as [degrees [Hd H]]. apply bind_ok in H as [minutes [Hm H]].
  rewrite Hd, Hm. cbn [bind]. injection H as <-.
  eexists. split; reflexivity.
Qed.

Section Decoder.

Variable tm : time_module.

(** Whatever [decode_fix] emits was read from a GGA or RMC sentence whose
    two angle texts converted. *)
Lemma decode_fix_some m pos :
  decode_fix tm m = Ok (Some pos) ->
  exists lat_text lat_dir lon_text lon_dir,
    angle_fields m = Some (lat_text, lat_dir, lon_text, lon_dir) /\
    _nmea_to_decimal lat_text lat_dir = Ok (lat pos) /\
    _nmea_to_decimal lon_text lon_dir = Ok (lon pos).
Proof.
  destruct m as [g|r|]; cbn [decode_fix angle_fields]; [| |discriminate].
  - destruct (truthy (gga_lat g) && truthy (gga_lon g))%bool; [|discriminate].
    intros H.
    apply bind_ok in H as [la [Hla H]]. apply bind_ok in H as [lo [Hlo H]].
    apply bind_ok in H as [al [_ H]]. apply bind_ok in H as [ts [_ H]].
    injection H as <-. cbn [lat lon].
    exists (gga_lat g), (gga_lat_dir g), (gga_lon g), (gga_lon_dir g). auto.
  - destruct (truthy (rmc_lat r) && truthy (rmc_lon r)
              && String.eqb (rmc_status r) "A")%bool; [|discriminate].
    intros H.
    apply bind_ok in H as [la [Hla H]]. apply bind_ok in H as [lo [Hlo H]].
    apply bind_ok in H as [ts [_ H]].
    injection H as <-. cbn [lat lon].
    exists (rmc_lat r), (rmc_lat_dir r), (rmc_lon r), (rmc_lon_dir r). auto.
Qed.

Lemma decode_line_some parse decode line pos :
  decode_line parse tm decode line = Ok (Some pos) ->
  exists m, parse (strip (decode line)) = Parsed m /\ decode_fix tm m = Ok (Some pos).
Proof.
  unfold decode_line.
  destruct (negb (truthy (strip (decode line)))); [discriminate|].
  destruct (parse (strip (decode line))) as [m| |]; try discriminate.
  intros H. exists m. auto.
Qed.

(** An RMC sentence that is not active yields nothing. *)
Lemma decode_rmc_inactive r :
  rmc_status r <> "A"%string -> decode_fix tm (MsgRMC r) = Ok None.
Proof.
  intros H. cbn [decode_fix]. apply String.eqb_neq in H. rewrite H.
  rewrite andb_false_r. reflexivity.
Qed.

End Decoder.

End DecoderFacts.

(* ================================================================== *)
(** ** Properties of the position store *)

Import Tracker TrackerFacts Fixtures.
Import List ListNotations.

(** C5: the history never holds more than its capacity, along any run of
    the loop and after any sequence of recordings; after [cap + k]
    recordings the snapshot is exactly the last [cap] positions, oldest
    first; and a run that opened its port leaves the newest [cap] of the
    positions it decoded. *)
Theorem history_keeps_newest (port : string) (baud : Z) (timeout : Q) (cap : nat) :
  (forall parse tm serial_Serial decode events,
     (length (get_history
                (_read_loop parse tm serial_Serial decode events
                   (init port baud timeout cap))) <= cap)%nat) /\
  (forall ps : list Position,
     let self := record_all ps (init port baud timeout cap) in
     (length (get_history self) <= cap)%nat /\
     get_history self = skipn (length ps - cap) ps /\
     (forall k, length ps = (cap + k)%nat ->
                get_history self = skipn k ps /\ length (get_history self) = cap)) /\
  (forall parse tm serial_Serial decode events,
     returns (_open_serial serial_Serial (init port baud timeout cap)) ->
     let recorded := fixes parse tm decode events false in
     get_history (_read_loop parse tm serial_Serial decode events
                    (init port baud timeout cap))
     = skipn (length recorded - cap) recorded).
Proof.
  assert (Hrec : forall ps,
    get_history (record_all ps (init port baud timeout cap))
    = skipn (length ps - cap) ps).
  { intros ps. apply (record_all_history ps (init port baud timeout cap)). reflexivity. }
  split; [|split].
  - intros parse tm serial_Serial decode events.
    pose (P := fun (d : deque) (_ : option Position) =>
                 (length (items d) <= maxlen d)%nat /\ maxlen d = cap).
    assert (H : holds P (_read_loop parse tm serial_Serial decode events
                           (init port baud timeout cap))).
    { apply read_loop_holds.
      - intros d last pos [Hb Hm]. split.
        + rewrite append_maxlen. apply append_bounded, Hb.
        + rewrite append_maxlen. exact Hm.
      - split; [apply Nat.le_0_l | reflexivity]. }
    destruct H as [Hb Hm]. rewrite Hm in Hb. exact Hb.
  - intros ps. cbv zeta. rewrite Hrec. split; [|split].
    + rewrite length_skipn. lia.
    + reflexivity.
    + intros k Hk. split.
      * f_equal. lia.
      * rewrite length_skipn. lia.
  - intros parse tm serial_Serial decode events Hopen. cbv zeta.
    pose proof (read_loop_store parse tm serial_Serial decode events
                  (init port baud timeout cap) Hopen) as Hs.
    unfold store in Hs. injection Hs as Hh _.
    unfold get_history at 1. rewrite Hh. apply Hrec.
Qed.



(* ================================================================== *)
(** ** Properties of the decoder *)

Import DecoderFacts.

(** C1, as stated, on an active RMC sentence whose latitude text is
    9959.99: the decoder emits a Position with latitude 99.99983..., above
    90, and the loop records it. *)
Lemma far_north_position_counterexample :
  exists pos : Position,
    decode_line sample_parse sample_tm ascii_decode rmc_far_north_line = Ok (Some pos) /\
    lat pos == 599999 # 6000 /\
    ~ in_range 90 (lat pos) /\
    get_last (iteration sample_parse sample_tm ascii_decode
                (Line rmc_far_north_line) (fresh 1000)) = Some pos.
Proof.
  eexists. split; [vm_compute; reflexivity|].
  split; [reflexivity|]. split; [|reflexivity].
  intros [_ H]. vm_compute in H. apply H. reflexivity.
Qed.

(** C1 (amended): for every raw line, a Position the decoder emits
    carries exactly what the converter returns for the latitude and
    longitude texts of the parsed sentence, that is degrees + minutes/60
    with the hemisphere sign, never a clamped value; a text the converter
    cannot read leaves no Position.  No range is checked: the latitude is
    within [-90, 90] (the longitude within [-180, 180]) exactly when
    degrees + minutes/60 of its text is. *)
Theorem emitted_position_is_converted
  (parse : string -> parse_result) (tm : time_module) (decode : string -> string)
  (line : string) (pos : Position) :
  decode_line parse tm decode line = Ok (Some pos) ->
  exists (m : msg) (lat_text lat_dir lon_text lon_dir : string) (mag_lat mag_lon : Q),
    parse (strip (decode line)) = Parsed m /\
    angle_fields m = Some (lat_text, lat_dir, lon_text, lon_dir) /\
    _nmea_to_decimal lat_text lat_dir = Ok (lat pos) /\
    _nmea_to_decimal lon_text lon_dir = Ok (lon pos) /\
    angle_magnitude lat_text = Ok mag_lat /\
    angle_magnitude lon_text = Ok mag_lon /\
    lat pos = (if south_or_west lat_dir then - mag_lat else mag_lat) /\
    lon pos = (if south_or_west lon_dir then - mag_lon else mag_lon) /\
    (in_range 90 (lat pos) <-> in_range 90 mag_lat) /\
    (in_range 180 (lon pos) <-> in_range 180 mag_lon).
Proof.
  intros H.
  apply decode_line_some in H as [m [Hparse Hfix]].
  apply decode_fix_some in Hfix as (lat_text & lat_dir & lon_text & lon_dir & Hf & Hla & Hlo).
  destruct (nmea_to_decimal_ok _ _ _ Hla) as [_ [mag_lat [Hmla Hvla]]].
  destruct (nmea_to_decimal_ok _ _ _ Hlo) as [_ [mag_lon [Hmlo Hvlo]]].
  exists m, lat_text, lat_dir, lon_text, lon_dir, mag_lat, mag_lon.
  repeat (split; [assumption|]).
  rewrite Hvla, Hvlo. split; apply in_range_signed.
Qed.

Lemma emitted_position_is_converted_witness :
  exists pos : Position,
    decode_line sample_parse sample_tm ascii_decode rmc_active_line = Ok (Some pos) /\
    _nmea_to_decimal "4807.038" "N" = Ok (lat pos) /\
    _nmea_to_decimal "01131.000" "E" = Ok (lon pos) /\
    in_range 90 (lat pos) /\ in_range 180 (lon pos).
Proof.
  assert (Hdec : exists pos,
    decode_line sample_parse sample_tm ascii_decode rmc_active_line = Ok (Some pos))
    by (vm_compute; eexists; reflexivity).
  destruct Hdec as [pos Hpos]. exists pos. split; [exact Hpos|].
  destruct (emitted_position_is_converted sample_parse sample_tm ascii_decode
              rmc_active_line pos Hpos)
    as (m & lat_text & lat_dir & lon_text & lon_dir & mag_lat & mag_lon
        & Hparse & Hfields & Hla & Hlo & Hmla & Hmlo & _ & _ & Hrla & Hrlo).
  vm_compute in Hparse. injection Hparse as <-. vm_compute in Hfields.
  injection Hfields as <- <- <- <-.
  split; [exact Hla | split; [exact Hlo|]].
  split.
  - apply Hrla. vm_compute in Hmla. injection Hmla as <-.
    split; vm_compute; discriminate.
  - apply Hrlo. vm_compute in Hmlo. injection Hmlo as <-.
    split; vm_compute; discriminate.
Defined.

(** C4, as stated, on an active RMC sentence whose latitude text is 49:
    the status is A and both coordinate texts are non-empty, yet the
    converter raises and no Position is produced. *)
Lemma rmc_active_short_lat_counterexample :
  let r := rmc_msg "A" "49" in
  rmc_status r = "A"%string /\
  truthy (rmc_lat r) = true /\ truthy (rmc_lon r) = true /\
  _nmea_to_decimal (rmc_lat r) (rmc_lat_dir r) = Raise ValueError /\
  decode_fix sample_tm (MsgRMC r) = Raise ValueError /\
  decode_line sample_parse sample_tm ascii_decode rmc_short_lat_line = Raise ValueError /\
  get_history (iteration sample_parse sample_tm ascii_decode
                 (Line rmc_short_lat_line) (fresh 1000)) = [] /\
  get_last (iteration sample_parse sample_tm ascii_decode
              (Line rmc_short_lat_line) (fresh 1000)) = None.
Proof. repeat split; vm_compute; reflexivity. Qed.

(** C4 (amended): an RMC sentence whose status is not A produces no
    Position, whatever its coordinate texts; when the status is A, both
    coordinate texts are non-empty and the converter reads both, it
    produces a Position with these two values and no altitude; and any
    Position from an RMC sentence has status A and no altitude. *)
Theorem rmc_requires_active_status (tm : time_module) (r : RMC) :
  (rmc_status r <> "A"%string -> decode_fix tm (MsgRMC r) = Ok None) /\
  (forall la lo : Q,
     rmc_status r = "A"%string ->
     truthy (rmc_lat r) = true -> truthy (rmc_lon r) = true ->
     _nmea_to_decimal (rmc_lat r) (rmc_lat_dir r) = Ok la ->
     _nmea_to_decimal (rmc_lon r) (rmc_lon_dir r) = Ok lo ->
     exists ts : option Q,
       _nmea_datetime_to_epoch tm (rmc_datestamp r) (rmc_timestamp r) = Ok ts /\
       decode_fix tm (MsgRMC r)
       = Ok (Some {| lat := la; lon := lo; alt := None; timestamp := ts |})) /\
  (forall pos : Position,
     decode_fix tm (MsgRMC r) = Ok (Some pos) ->
     rmc_status r = "A"%string /\ alt pos = None).
Proof.
  split; [|split].
  - apply decode_rmc_inactive.
  - intros la lo Hs Hla Hlo Hcla Hclo.
    destruct (datetime_to_epoch_returns tm (rmc_datestamp r) (rmc_timestamp r))
      as [ts Hts].
    exists ts. split; [exact Hts|].
    cbn [decode_fix]. rewrite Hla, Hlo, Hs, Hcla, Hclo, Hts. reflexivity.
  - intros pos. cbn [decode_fix].
    destruct (String.eqb_spec (rmc_status r) "A") as [Hs|Hs].
    + destruct (truthy (rmc_lat r) && truthy (rmc_lon r) && true)%bool; [|discriminate].
      intros H.
      apply bind_ok in H as [la [_ H]]. apply bind_ok in H as [lo [_ H]].
      apply bind_ok in H as [ts [_ H]]. injection H as <-. auto.
    + rewrite andb_false_r. discriminate.
Qed.

Lemma rmc_requires_active_status_witness :
  decode_fix sample_tm (MsgRMC (rmc_msg "V" "4807.038")) = Ok None /\
  exists ts : option Q,
    decode_fix sample_tm (MsgRMC (rmc_msg "A" "4807.038"))
    = Ok (Some {| lat := 2887038 # 60000; lon := 691000 # 60000;
                  alt := None; timestamp := ts |}).
Proof.
  split.
  - apply (proj1 (rmc_requires_active_status sample_tm (rmc_msg "V" "4807.038"))).
    discriminate.
  - destruct (proj1 (proj2 (rmc_requires_active_status sample_tm (rmc_msg "A" "4807.038")))
                (2887038 # 60000) (691000 # 60000)
                eq_refl eq_refl eq_refl eq_refl eq_refl) as [ts [_ Hfix]].
    exists ts. exact Hfix.
Defined.

(* ================================================================== *)
(** ** Properties of the life cycle *)

(** C2, as stated, with a port that does not open: [start] returns
    normally, reports nothing and has started the worker thread. *)
Lemma start_open_failure_counterexample :
  _open_serial serial_absent (fresh 1000) = Raise SerialException /\
  fst (start (fresh 1000)) = Ok tt /\
  fst (start (fresh 1000)) <> Raise SerialException /\
  thread_alive (snd (start (fresh 1000))) = true /\
  stdout (snd (start (fresh 1000))) = [].
Proof. repeat split; try reflexivity. discriminate. Qed.

(** C2 (amended): when opening the line source fails, [start] itself
    still returns normally and prints nothing (it only starts the worker
    thread); the failure is reported by the worker, which prints it, and
    the reading loop does not run: no event is consumed, the history and
    the last position are unchanged, and the worker is finished. *)
Theorem open_failure_reported_by_worker
  (parse : string -> parse_result) (tm : time_module)
  (serial_Serial : string -> Z -> Q -> exc Serial) (decode : string -> string)
  (events : list event) (self : GPSTracker) (e : exn) :
  thread_alive self = false ->
  _open_serial serial_Serial self = Raise e ->
  let started := snd (start self) in
  let finished := _read_loop parse tm serial_Serial decode events started in
  fst (start self) = Ok tt /\
  thread_alive started = true /\
  stdout started = stdout self /\
  stdout finished = stdout self ++ [ErrorOpeningSerial (serial_port self) e] /\
  get_history finished = get_history self /\
  get_last finished = get_last self /\
  thread_alive finished = false /\
  finished = _read_loop parse tm serial_Serial decode [] started.
Proof.
  intros Hth Hopen. cbv zeta. unfold start. rewrite Hth. cbn [fst snd].
  assert (Hopen' : _open_serial serial_Serial
                     (set_thread (Some {| is_alive := true |}) (set_stop_event false self))
                   = Raise e).
  { unfold _open_serial in Hopen.
    destruct (ser_open self) eqn:Hso; [discriminate Hopen|].
    destruct (serial_Serial (serial_port self) (baudrate self) (timeout self))
      as [ser|e0] eqn:Hs; [discriminate Hopen|].
    cbn [bind] in Hopen. injection Hopen as ->.
    unfold _open_serial.
    change (ser_open (set_thread (Some {| is_alive := true |})
                        (set_stop_event false self)))
      with (ser_open self).
    rewrite Hso. cbn [set_thread set_stop_event serial_port baudrate timeout].
    rewrite Hs. reflexivity. }
  unfold _read_loop. rewrite Hopen'.
  repeat split; reflexivity.
Qed.

Lemma open_failure_reported_by_worker_witness :
  let started := snd (start (fresh 1000)) in
  let finished := _read_loop sample_parse sample_tm serial_absent ascii_decode
                    [Read (Line gga_line)] started in
  fst (start (fresh 1000)) = Ok tt /\
  stdout finished = [ErrorOpeningSerial "/dev/ttyUSB0" SerialException] /\
  get_history finished = [] /\
  thread_alive finished = false.
Proof.
  destruct (open_failure_reported_by_worker sample_parse sample_tm serial_absent
              ascii_decode [Read (Line gga_line)] (fresh 1000) SerialException
              eq_refl eq_refl)
    as (Hret & _ & _ & Hout & Hhist & _ & Hdone & _).
  cbv zeta. split; [exact Hret|]. split; [exact Hout|]. split; [exact Hhist | exact Hdone].
Defined.

(* ================================================================== *)
(** ** Properties of the geofence *)

(** X20: without a recorded position (a new tracker, or any run of the
    loop that decoded no fix) [get_last] is [None] and the geofence check
    is [None], which is neither [Some true] nor [Some false]; once a
    position is recorded [get_last] is that position and the check is no
    longer [None]. *)
Theorem geofence_none_without_position :
  (forall port baud timeout history_size center radius_m,
     get_last (init port baud timeout history_size) = None /\
     geofence_check_circle (init port baud timeout history_size) center radius_m = None) /\
  (forall parse tm serial_Serial decode events port baud timeout history_size
          center radius_m,
     fixes parse tm decode events false = [] ->
     let self := _read_loop parse tm serial_Serial decode events
                   (init port baud timeout history_size) in
     get_last self = None /\ geofence_check_circle self center radius_m = None) /\
  (forall self center radius_m,
     get_last self = None ->
     geofence_check_circle self center radius_m = None /\
     geofence_check_circle self center radius_m <> Some true /\
     geofence_check_circle self center radius_m <> Some false) /\
  (forall pos self center radius_m,
     get_last (record pos self) = Some pos /\
     geofence_check_circle (record pos self) center radius_m <> None).
Proof.
  split; [|split; [|split]].
  - intros. split; reflexivity.
  - intros parse tm serial_Serial decode events port baud timeout history_size
      center radius_m Hnone self.
    pose proof (read_loop_store_no_fix parse tm serial_Serial decode events
                  (init port baud timeout history_size) Hnone) as Hs.
    unfold store in Hs. injection Hs as _ Hlast.
    assert (Hl : get_last self = None) by exact Hlast.
    split; [exact Hl|]. unfold geofence_check_circle. rewrite Hl. reflexivity.
  - intros self center radius_m H. unfold geofence_check_circle. rewrite H.
    repeat split; discriminate.
  - intros pos self center radius_m. split; [reflexivity|].
    unfold geofence_check_circle. cbn [get_last record _last_position].
    discriminate.
Qed.

(* ================================================================== *)
(** ** More about the distance and the geofence *)

Module DistanceFacts.
Import Geo GeoFacts.

Open Scope R_scope.

Lemma radians_0 : radians 0 = 0.
Proof. unfold radians. field. Qed.

Lemma haversine_a_same lat lon : haversine_a lat lon lat lon = 0.
Proof.
  unfold haversine_a.
  replace (lat - lat) with 0 by ring. replace (lon - lon) with 0 by ring.
  rewrite radians_0. replace (0 / 2) with 0 by field. rewrite sin_0. ring.
Qed.

Lemma atan2_0_1 : atan2 0 1 = 0.
Proof.
  unfold atan2. destruct (Rlt_dec 0 1) as [_|H]; [|lra].
  replace (0 / 1) with 0 by field. apply atan_0.
Qed.

Close Scope R_scope.

End DistanceFacts.

Import DistanceFacts.

(** X1: the distance from a point to itself is 0, so the geofence check
    of a tracker centred on its own last position is inside for every
    radius that is not negative. *)
Theorem geofence_reflexive :
  (forall p : R * R, haversine_distance_m p p = 0%R) /\
  (forall (self : GPSTracker) (last : Position) (radius_m : R),
     get_last self = Some last -> (0 <= radius_m)%R ->
     geofence_check_circle self (Q2R (lat last), Q2R (lon last)) radius_m = Some true).
Proof.
  assert (Hzero : forall p : R * R, haversine_distance_m p p = 0%R).
  { intros [la lo]. rewrite haversine_unfold, haversine_a_same.
    rewrite Rminus_0_r, sqrt_0, sqrt_1, atan2_0_1. ring. }
  split; [exact Hzero|].
  intros self last radius_m Hlast Hr.
  unfold geofence_check_circle. rewrite Hlast, Hzero. unfold Rle_bool.
  destruct (Rle_dec 0 radius_m) as [_|Hn]; [reflexivity | contradiction].
Qed.

Lemma geofence_reflexive_witness :
  geofence_check_circle (record pos1 (fresh 10)) (Q2R 1, Q2R 10) 25 = Some true.
Proof.
  apply (proj2 geofence_reflexive (record pos1 (fresh 10)) pos1 25%R eq_refl).
  lra.
Defined.

(* ================================================================== *)
(** ** More about the converter *)

Module ConverterFacts.
Import Py Nmea PyFacts NmeaFacts DecoderFacts.

Open Scope Z_scope.

(** [float] raises nothing but [ValueError]. *)
Lemma read_exponent_error s e : read_exponent s = Raise e -> e = ValueError.
Proof.
  unfold read_exponent. destruct s as [|c r]; [discriminate|].
  destruct (Ascii.eqb c "e" || Ascii.eqb c "E")%bool; [|congruence].
  destruct (read_sign r) as [neg r1].
  destruct (read_digits r1 0 0) as [[v n] rest].
  destruct n; [congruence|]. destruct rest; [discriminate | congruence].
Qed.

Lemma float_error s e : float s = Raise e -> e = ValueError.
Proof.
  unfold float.
  destruct (drop_underscores Ascii.zero (strip_by is_c_space s)) as [text|];
    [|congruence].
  unfold float_literal.
  destruct (read_sign text) as [neg body].
  destruct (read_digits body 0 0) as [[ip ni] r1].
  match goal with
  | |- context [match ?m with (_, _) => _ end] => destruct m as [[mant nf] r2]
  end.
  destruct (ni + nf)%nat; [congruence|].
  destruct (read_exponent r2) as [ex|e'] eqn:E; cbn [bind]; [discriminate|].
  intros H. injection H as <-. apply (read_exponent_error _ _ E).
Qed.

(** With no minute text the conversion raises [ValueError]. *)
Lemma decimal_of_parts_no_minutes deg_text direction :
  decimal_of_parts deg_text "" direction = Raise ValueError.
Proof.
  unfold decimal_of_parts. destruct (float deg_text) as [v|e] eqn:E; cbn [bind].
  - reflexivity.
  - rewrite (float_error _ _ E). reflexivity.
Qed.

Lemma find_from_absent c s : forall i,
  string_forall (fun x => negb (Ascii.eqb x c)) s = true -> find_from c s i = -1.
Proof.
  induction s as [|x s IH]; intros i H; [reflexivity|].
  cbn [string_forall] in H. apply andb_true_iff in H as [Hx Hs].
  apply negb_true_iff in Hx. cbn [find_from]. rewrite Hx. apply IH, Hs.
Qed.

Lemma find_dot_absent s : no_dot s = true -> find "." s = -1.
Proof. apply find_from_absent. Qed.

(** The split of a digit string that has no point. *)
Lemma split_without_point dd mm :
  all_digits dd = true -> all_digits mm = true ->
  (String.length dd = 2%nat /\ (String.length mm <= 2)%nat) \/
  ((1 <= String.length dd)%nat /\ String.length mm = 4%nat) ->
  deg_len (dd ++ mm) = len dd.
Proof.
  intros Hdd Hmm Hshape. unfold deg_len.
  rewrite find_dot_absent.
  2:{ unfold no_dot. rewrite string_forall_app. fold (no_dot dd) (no_dot mm).
      rewrite (all_digits_no_dot _ Hdd), (all_digits_no_dot _ Hmm). reflexivity. }
  rewrite Z.eqb_refl, len_app. unfold len.
  destruct Hshape as [[H2 Hle]|[H1 H4]].
  - destruct (Z.of_nat (String.length dd) + Z.of_nat (String.length mm) <=? 4) eqn:E.
    + lia.
    + apply Z.leb_gt in E. lia.
  - destruct (Z.of_nat (String.length dd) + Z.of_nat (String.length mm) <=? 4) eqn:E.
    + apply Z.leb_le in E. lia.
    + lia.
Qed.

(** The converter is the signed magnitude. *)
Lemma nmea_to_decimal_signed coord_str direction :
  truthy coord_str = true ->
  _nmea_to_decimal coord_str direction
  = bind (angle_magnitude coord_str)
         (fun mag => Ok (if south_or_west direction then Qopp mag else mag)).
Proof.
  intros H. unfold _nmea_to_decimal, angle_magnitude. rewrite H. cbn [negb].
  destruct (float (slice_to coord_str (deg_len coord_str))) as [d|e]; [|reflexivity].
  cbn [bind].
  destruct (float (slice_from coord_str (deg_len coord_str))); reflexivity.
Qed.

Lemma nmea_to_decimal_empty direction : _nmea_to_decimal "" direction = Raise ValueError.
Proof. reflexivity. Qed.

(** A run of digits is below the power of ten of its length. *)
Lemma digits_val_bound s : all_digits s = true -> digits_val s < 10 ^ len s.
Proof.
  induction s as [|c r IH]; intros H.
  - cbn. lia.
  - destruct (all_digits_cons _ _ H) as [Hc Hr].
    change (String c r) with (String c "" ++ r)%string.
    rewrite digits_val_app by (try exact Hr; cbn [all_digits string_forall];
                               rewrite Hc; reflexivity).
    rewrite len_app. change (len (String c "")) with 1.
    rewrite Z.pow_add_r, Z.pow_1_r by (try apply len_nonneg; lia).
    assert (Hv : digits_val (String c "") = digit_val c).
    { unfold digits_val. rewrite (read_digits_digit _ _ _ _ Hc). cbn. lia. }
    rewrite Hv. pose proof (digit_val_range _ Hc). specialize (IH Hr).
    assert (0 < 10 ^ len r) by (apply Z.pow_pos_nonneg; [lia | apply len_nonneg]).
    nia.
Qed.

Close Scope Z_scope.

End ConverterFacts.

Import ConverterFacts.

(** X4: a coordinate text of at most two characters never converts:
    whatever the characters and the hemisphere, [_nmea_to_decimal] raises
    [ValueError] (the empty text by its own check, a longer one because no
    minute text is left). *)
Theorem nmea_to_decimal_short_raises (coord_str direction : string) :
  (String.length coord_str <= 2)%nat ->
  _nmea_to_decimal coord_str direction = Raise ValueError.
Proof.
  intros Hlen.
  destruct coord_str as [|a [|b [|c r]]].
  - reflexivity.
  - rewrite nmea_to_decimal_parts by reflexivity.
    assert (Hd : deg_len (String a "") = 2%Z).
    { unfold deg_len, Py.find. cbn [find_from]. destruct (Ascii.eqb a "."); reflexivity. }
    rewrite Hd. apply decimal_of_parts_no_minutes.
  - rewrite nmea_to_decimal_parts by reflexivity.
    assert (Hd : deg_len (String a (String b "")) = 2%Z).
    { unfold deg_len, Py.find. cbn [find_from].
      destruct (Ascii.eqb a "."); [reflexivity|].
      destruct (Ascii.eqb b "."); reflexivity. }
    rewrite Hd. apply decimal_of_parts_no_minutes.
  - cbn [String.length] in Hlen. lia.
Qed.

Lemma nmea_to_decimal_short_raises_witness :
  _nmea_to_decimal "49" "N" = Raise ValueError /\
  _nmea_to_decimal ".5" "E" = Raise ValueError.
Proof.
  split.
  - apply (nmea_to_decimal_short_raises "49" "N"). apply le_n.
  - apply (nmea_to_decimal_short_raises ".5" "E"). apply le_n.
Defined.

(** X5: on a digit string with no decimal point the converter reads the
    first two digits as degrees and the remaining one or two as minutes
    when the string has at most four digits, and reads the last four
    digits as minutes and the digits before them as degrees when it has
    five or more. *)
Theorem nmea_to_decimal_without_point (dd mm direction : string) :
  all_digits dd = true -> all_digits mm = true -> truthy mm = true ->
  (String.length dd = 2%nat /\ (String.length mm <= 2)%nat) \/
  ((1 <= String.length dd)%nat /\ String.length mm = 4%nat) ->
  _nmea_to_decimal (dd ++ mm) direction
  = Ok (let dec := inject_Z (digits_val dd) + inject_Z (digits_val mm) / 60 in
        if south_or_west direction then - dec else dec).
Proof.
  intros Hdd Hmm Hne Hshape.
  assert (Hned : truthy dd = true).
  { destruct dd; [|reflexivity]. cbn [String.length] in Hshape.
    destruct Hshape as [[H _]|[H _]]; [discriminate H | lia]. }
  rewrite nmea_to_decimal_parts by (destruct dd; [discriminate Hned | reflexivity]).
  rewrite (split_without_point dd mm Hdd Hmm Hshape).
  rewrite slice_to_app, slice_from_app. unfold decimal_of_parts.
  rewrite (float_digits dd Hdd Hned), (float_digits mm Hmm Hne).
  reflexivity.
Qed.

Lemma nmea_to_decimal_without_point_witness :
  _nmea_to_decimal "4916" "N" = Ok (inject_Z 49 + inject_Z 16 / 60) /\
  _nmea_to_decimal "12311" "E" = Ok (inject_Z 1 + inject_Z 2311 / 60).
Proof.
  split.
  - apply (nmea_to_decimal_without_point "49" "16" "N" eq_refl eq_refl eq_refl).
    left. split; [reflexivity | apply le_n].
  - apply (nmea_to_decimal_without_point "1" "2311" "E" eq_refl eq_refl eq_refl).
    right. split; [apply le_n | reflexivity].
Defined.

(** X6: the hemisphere only decides the sign, and only the exact letters
    S and W negate: when a text converts to [v] for N it converts to
    [- v] for S and for W and to [v] for every other direction text
    (E, lower case letters, the empty text); when it fails for one
    direction it fails in the same way for all. *)
Theorem nmea_to_decimal_hemisphere (coord_str : string) :
  (forall v : Q,
     _nmea_to_decimal coord_str "N" = Ok v ->
     _nmea_to_decimal coord_str "S" = Ok (- v) /\
     _nmea_to_decimal coord_str "W" = Ok (- v) /\
     (forall direction : string,
        direction <> "S"%string -> direction <> "W"%string ->
        _nmea_to_decimal coord_str direction = Ok v)) /\
  (forall (e : exn) (d1 d2 : string),
     _nmea_to_decimal coord_str d1 = Raise e ->
     _nmea_to_decimal coord_str d2 = Raise e).
Proof.
  destruct (truthy coord_str) eqn:Hne.
  - split.
    + intros v. rewrite !(nmea_to_decimal_signed _ _ Hne).
      destruct (angle_magnitude coord_str) as [mag|e] eqn:Hm; cbn [bind]; [|discriminate].
      intros H. cbn in H. injection H as <-.
      split; [reflexivity | split; [reflexivity|]].
      intros direction HS HW.
      rewrite (nmea_to_decimal_signed _ _ Hne), Hm. cbn [bind].
      destruct (south_or_west direction) eqn:E; [|reflexivity].
      apply south_or_west_spec in E. destruct E; contradiction.
    + intros e d1 d2. rewrite !(nmea_to_decimal_signed _ _ Hne).
      destruct (angle_magnitude coord_str) as [mag|e']; cbn [bind];
        [discriminate | auto].
  - destruct coord_str; [|discriminate Hne].
    split; [intros v H; discriminate H | intros e d1 d2 H; exact H].
Qed.

Lemma nmea_to_decimal_hemisphere_witness :
  _nmea_to_decimal "4916.45" "S" = Ok (- (295645 # 6000)) /\
  _nmea_to_decimal "4916.45" "s" = Ok (295645 # 6000).
Proof.
  destruct (proj1 (nmea_to_decimal_hemisphere "4916.45") (295645 # 6000) eq_refl)
    as [HS [_ Hother]].
  split; [exact HS|].
  apply Hother; discriminate.
Defined.

From Stdlib Require Lqa.

(** The fraction [0.FFFF] spelled by fraction digits. *)
Lemma fraction_bounds (ff : string) :
  all_digits ff = true ->
  0 <= inject_Z (digits_val ff) / inject_Z (10 ^ len ff) /\
  inject_Z (digits_val ff) / inject_Z (10 ^ len ff) < 1.
Proof.
  intros Hff.
  assert (Hp : (0 < 10 ^ len ff)%Z)
    by (apply Z.pow_pos_nonneg; [lia | apply len_nonneg]).
  assert (Hq : 0 < inject_Z (10 ^ len ff)) by (rewrite <- (Zlt_Qlt 0); exact Hp).
  split.
  - apply Qle_shift_div_l; [exact Hq|]. rewrite Qmult_0_l.
    rewrite <- (Zle_Qle 0). apply digits_val_nonneg, Hff.
  - apply Qlt_shift_div_r; [exact Hq|]. rewrite Qmult_1_l.
    rewrite <- Zlt_Qlt. apply digits_val_bound, Hff.
Qed.

(** X7: a well-formed angle (degree digits, two minute digits, a point,
    fraction digits) whose degrees are below a bound and whose minute
    digits are at most 59 converts to a value from minus the bound to the
    bound, both included, not negative for N and E and not positive for
    S and W.  With the bound 90 this is a latitude, with 180 a
    longitude.  The bound is taken within the integers that binary64
    holds exactly, where the rounding of the code cannot pass it. *)
Theorem nmea_to_decimal_in_range (dd mm ff direction : string) (bound : Z) :
  all_digits dd = true -> all_digits mm = true -> all_digits ff = true ->
  (2 <= String.length dd)%nat -> String.length mm = 2%nat ->
  (digits_val dd < bound)%Z -> (bound <= 2 ^ 53)%Z -> (digits_val mm <= 59)%Z ->
  exists dec : Q,
    _nmea_to_decimal (dd ++ mm ++ String "." ff) direction = Ok dec /\
    - inject_Z bound <= dec /\ dec <= inject_Z bound /\
    (south_or_west direction = false -> 0 <= dec) /\
    (south_or_west direction = true -> dec <= 0).
Proof.
  intros Hdd Hmm Hff Hld Hlm Hdeg _ Hmin.
  eexists. split; [apply nmea_to_decimal_shape; assumption|].
  cbv zeta.
  pose proof (minutes_value _ _ Hmm Hff) as Hval.
  destruct (fraction_bounds ff Hff) as [Hf0 Hf1].
  assert (HD0 : 0 <= inject_Z (digits_val dd))
    by (rewrite <- (Zle_Qle 0); apply digits_val_nonneg, Hdd).
  assert (HD1 : inject_Z (digits_val dd) <= inject_Z bound - 1).
  { change 1 with (inject_Z 1). unfold Qminus. rewrite <- inject_Z_opp, <- inject_Z_plus.
    rewrite <- Zle_Qle. lia. }
  assert (HM0 : 0 <= inject_Z (digits_val mm))
    by (rewrite <- (Zle_Qle 0); apply digits_val_nonneg, Hmm).
  assert (HM1 : inject_Z (digits_val mm) <= 59)
    by (change 59 with (inject_Z 59); rewrite <- Zle_Qle; exact Hmin).
  set (D := inject_Z (digits_val dd)) in *.
  set (M := inject_Z (digits_val mm)) in *.
  set (F := inject_Z (digits_val ff) / inject_Z (10 ^ len ff)) in *.
  set (S := scale10 (digits_val (mm ++ ff)) (- len ff)) in *.
  set (B := inject_Z bound) in *.
  clearbody D M F S B.
  assert (HT : 60 * (S / 60) == S) by (field; discriminate).
  set (T := S / 60) in *. clearbody T.
  destruct (south_or_west direction);
    (split; [Lqa.lra | split; [Lqa.lra | split]]);
    intros E; try discriminate E; Lqa.lra.
Qed.

Lemma nmea_to_decimal_in_range_witness :
  exists dec : Q,
    _nmea_to_decimal "12311.12" "W" = Ok dec /\
    - inject_Z 180 <= dec /\ dec <= inject_Z 180.
Proof.
  assert (H : (2 <= 3)%nat /\ (123 < 180)%Z /\ (11 <= 59)%Z) by (repeat split; lia).
  assert (Hb : (180 <= 2 ^ 53)%Z) by (vm_compute; discriminate).
  destruct (nmea_to_decimal_in_range "123" "11" "12" "W" 180
              eq_refl eq_refl eq_refl (proj1 H) eq_refl
              (proj1 (proj2 H)) Hb (proj2 (proj2 H)))
    as [dec [Hdec [Hlo [Hhi _]]]].
  exists dec. split; [exact Hdec | split; [exact Hlo | exact Hhi]].
Defined.

(* ================================================================== *)
(** ** More about the decoder *)

(** A GGA sentence with an empty coordinate text yields nothing. *)
Lemma decode_gga_missing (tm : time_module) (g : GGA) :
  truthy (gga_lat g) = false \/ truthy (gga_lon g) = false ->
  decode_fix tm (MsgGGA g) = Ok None.
Proof.
  intros [H|H]; cbn [decode_fix]; rewrite H; [|rewrite andb_false_r]; reflexivity.
Qed.

(** X8: a GGA sentence yields a Position only when both coordinate texts
    are non-empty, and no status is consulted.  When both convert, the
    altitude is what [alt] reads as (a number, or nothing for [None] and
    for the empty text) and the time stamp is the time-only one; when
    reading [alt] raises (the attribute is missing, or its text is not a
    number) the fix is lost although the coordinates converted. *)
Theorem gga_fix (tm : time_module) (g : GGA) :
  (truthy (gga_lat g) = false \/ truthy (gga_lon g) = false ->
   decode_fix tm (MsgGGA g) = Ok None) /\
  (forall la lo : Q,
     truthy (gga_lat g) = true -> truthy (gga_lon g) = true ->
     _nmea_to_decimal (gga_lat g) (gga_lat_dir g) = Ok la ->
     _nmea_to_decimal (gga_lon g) (gga_lon_dir g) = Ok lo ->
     match bind (gga_alt g) read_alt with
     | Ok al =>
         exists ts : option Q,
           _nmea_time_to_epoch tm (gga_timestamp g) = Ok ts /\
           decode_fix tm (MsgGGA g)
           = Ok (Some {| lat := la; lon := lo; alt := al; timestamp := ts |})
     | Raise e => decode_fix tm (MsgGGA g) = Raise e
     end) /\
  (forall pos : Position,
     decode_fix tm (MsgGGA g) = Ok (Some pos) ->
     truthy (gga_lat g) = true /\ truthy (gga_lon g) = true /\
     bind (gga_alt g) read_alt = Ok (alt pos)) /\
  read_alt AltNone = Ok None /\
  read_alt (AltStr "") = Ok None /\
  (forall text : string,
     truthy text = true ->
     read_alt (AltStr text) = bind (float text) (fun v => Ok (Some v))).
Proof.
  split; [|split; [|split; [|split; [|split]]]]; try reflexivity.
  - apply decode_gga_missing.
  - intros la lo Hla Hlo Hcla Hclo. cbn [decode_fix].
    rewrite Hla, Hlo, Hcla, Hclo. cbn [andb bind].
    destruct (bind (gga_alt g) read_alt) as [al|e]; cbn [bind]; [|reflexivity].
    destruct (time_to_epoch_returns tm (gga_timestamp g)) as [ts Hts].
    exists ts. split; [exact Hts|]. rewrite Hts. reflexivity.
  - intros pos. cbn [decode_fix].
    destruct (truthy (gga_lat g)); [|discriminate].
    destruct (truthy (gga_lon g)); [|discriminate]. cbn [andb].
    intros H.
    apply bind_ok in H as [la [_ H]]. apply bind_ok in H as [lo [_ H]].
    apply bind_ok in H as [al [Hal H]]. apply bind_ok in H as [ts [_ H]].
    injection H as <-. auto.
  - intros text H. cbn [read_alt]. rewrite H. reflexivity.
Qed.

Lemma gga_fix_witness :
  (exists ts : option Q,
     decode_fix sample_tm
       (MsgGGA {| gga_lat := "4916.45"; gga_lat_dir := "N";
                  gga_lon := "12311.12"; gga_lon_dir := "W";
                  gga_alt := Ok (AltStr "545.4");
                  gga_timestamp := Time 12 35 19 |})
     = Ok (Some {| lat := 295645 # 6000; lon := - (739112 # 6000);
                   alt := Some (5454 # 10); timestamp := ts |})) /\
  decode_fix sample_tm (gga_msg "4916.45") = Raise AttributeError.
Proof.
  split.
  - destruct (proj1 (proj2 (gga_fix sample_tm
                 {| gga_lat := "4916.45"; gga_lat_dir := "N";
                    gga_lon := "12311.12"; gga_lon_dir := "W";
                    gga_alt := Ok (AltStr "545.4");
                    gga_timestamp := Time 12 35 19 |}))
                (295645 # 6000) (- (739112 # 6000))
                eq_refl eq_refl eq_refl eq_refl) as [ts [_ H]].
    exists ts. exact H.
  - exact (proj1 (proj2 (gga_fix sample_tm
                 {| gga_lat := "4916.45"; gga_lat_dir := "N";
                    gga_lon := "12311.12"; gga_lon_dir := "W";
                    gga_alt := Raise AttributeError;
                    gga_timestamp := Time 12 35 19 |}))
                (295645 # 6000) (- (739112 # 6000))
                eq_refl eq_refl eq_refl eq_refl).
Defined.

(** A line the loop passes over: blank after stripping, refused by the
    parser (check sum or format), of another sentence kind, a GGA or RMC
    sentence with an empty coordinate text, or an RMC sentence that is
    not active. *)
Definition passed_over (parse : string -> parse_result) (decode : string -> string)
  (line : string) : Prop :=
  let line_str := strip (decode line) in
  truthy line_str = false \/
  parse line_str = ChecksumError \/
  parse line_str = ParseError \/
  parse line_str = Parsed MsgOther \/
  (exists g, parse line_str = Parsed (MsgGGA g) /\
             (truthy (gga_lat g) = false \/ truthy (gga_lon g) = false)) \/
  (exists r, parse line_str = Parsed (MsgRMC r) /\
             (truthy (rmc_lat r) = false \/ truthy (rmc_lon r) = false \/
              rmc_status r <> "A"%string)).

Lemma passed_over_none parse tm decode line :
  passed_over parse decode line -> decode_line parse tm decode line = Ok None.
Proof.
  unfold passed_over, decode_line. cbv zeta.
  intros [H|[H|[H|[H|[[g [H Hg]]|[r [H Hr]]]]]]]; rewrite H; try reflexivity.
  - destruct (negb (truthy (strip (decode line)))); reflexivity.
  - destruct (negb (truthy (strip (decode line)))); reflexivity.
  - destruct (negb (truthy (strip (decode line)))); reflexivity.
  - destruct (negb (truthy (strip (decode line)))); [reflexivity|].
    apply (decode_gga_missing tm g Hg).
  - destruct (negb (truthy (strip (decode line)))); [reflexivity|].
    cbn [decode_fix]. destruct Hr as [Hr|[Hr|Hr]].
    + rewrite Hr. reflexivity.
    + rewrite Hr, andb_false_r. reflexivity.
    + apply String.eqb_neq in Hr. rewrite Hr, andb_false_r. reflexivity.
Qed.

(** X9: lines the loop passes over, and read time-outs, change nothing:
    over any run made only of them the tracker ends exactly as it began
    (nothing recorded, nothing printed, the callback not involved). *)
Theorem passed_over_lines_change_nothing
  (parse : string -> parse_result) (tm : time_module) (decode : string -> string)
  (lines : list string) (self : GPSTracker) :
  Forall (fun line => line = ""%string \/ passed_over parse decode line) lines ->
  while_loop parse tm decode (map (fun line => Read (Line line)) lines) self = self.
Proof.
  intros Hall. induction Hall as [|line lines Hline _ IH]; [reflexivity|].
  cbn [map while_loop]. destruct (_stop_event self); [reflexivity|].
  assert (Hit : iteration parse tm decode (Line line) self = self).
  { unfold iteration. destruct Hline as [->|Hline]; [reflexivity|].
    destruct (negb (truthy line)); [reflexivity|].
    rewrite (passed_over_none parse tm decode line Hline). reflexivity. }
  rewrite Hit. exact IH.
Qed.

Lemma passed_over_lines_change_nothing_witness :
  while_loop sample_parse sample_tm ascii_decode
    (map (fun line => Read (Line line))
       [bad_checksum_line; gsa_line; rmc_void_line; "   "%string; ""%string;
        "garbage"%string])
    (fresh 10)
  = fresh 10.
Proof.
  apply (passed_over_lines_change_nothing sample_parse sample_tm ascii_decode).
  apply Forall_cons; [right; right; left; reflexivity|].
  apply Forall_cons; [right; right; right; right; left; reflexivity|].
  apply Forall_cons.
  { right. right. right. right. right. right.
    exists (rmc_msg "V" "4807.038"). split; [reflexivity|].
    right. right. discriminate. }
  apply Forall_cons; [right; left; reflexivity|].
  apply Forall_cons; [left; reflexivity|].
  apply Forall_cons; [right; right; right; left; reflexivity|].
  apply Forall_nil.
Defined.

(* ================================================================== *)
(** ** More about the loop and the life cycle *)

Module LoopFacts.
Import Py Nmea Tracker TrackerFacts.
Import List ListNotations.

Section Run.

Variable parse : string -> parse_result.
Variable tm : time_module.
Variable decode : string -> string.

Lemma while_loop_stopped events self :
  _stop_event self = true -> while_loop parse tm decode events self = self.
Proof.
  intros H. destruct events as [|ev rest]; [reflexivity|].
  cbn [while_loop]. rewrite H. reflexivity.
Qed.

(** An event that leads to no fix can be left out of the fixes. *)
Lemma fixes_skip r pre post : forall stopped,
  fix_of parse tm decode r = None ->
  fixes parse tm decode (pre ++ Read r :: post) stopped
  = fixes parse tm decode (pre ++ post) stopped.
Proof.
  intros stopped Hr. revert stopped.
  induction pre as [|ev pre IH]; intros stopped.
  - cbn [app fixes]. rewrite Hr.
    destruct stopped; [destruct post|]; reflexivity.
  - cbn [app fixes]. destruct stopped; [reflexivity|].
    destruct ev as [r'|]; [destruct (fix_of parse tm decode r')|]; rewrite IH; reflexivity.
Qed.

(** Every fix of a run was decoded from a line of the run. *)
Lemma fixes_In p events : forall stopped,
  In p (fixes parse tm decode events stopped) ->
  exists line, In (Read (Line line)) events /\
               decode_line parse tm decode line = Ok (Some p).
Proof.
  induction events as [|ev rest IH]; intros stopped H; [contradiction H|].
  cbn [fixes] in H. destruct stopped; [contradiction H|].
  assert (Hrest : forall b, In p (fixes parse tm decode rest b) ->
            exists line, In (Read (Line line)) (ev :: rest) /\
                         decode_line parse tm decode line = Ok (Some p)).
  { intros b Hb. destruct (IH b Hb) as [line [Hin Hdec]].
    exists line. split; [right; exact Hin | exact Hdec]. }
  destruct ev as [r|]; [|apply (Hrest true H)].
  destruct (fix_of parse tm decode r) as [pos|] eqn:Hfix; [|apply (Hrest false H)].
  destruct H as [<-|H]; [|apply (Hrest false H)].
  unfold fix_of in Hfix. destruct r as [line|e]; [|discriminate Hfix].
  destruct (negb (truthy line)); [discriminate Hfix|].
  destruct (decode_line parse tm decode line) as [[q|]|e] eqn:Hdec;
    try discriminate Hfix.
  injection Hfix as ->. exists line. split; [left; reflexivity | exact Hdec].
Qed.

End Run.

(** The last position after recording a run of positions. *)
Lemma record_all_last ps self :
  _last_position (record_all ps self)
  = match last_item ps with
    | Some p => Some p
    | None => _last_position self
    end.
Proof.
  induction ps as [|p ps IH] using rev_ind; [reflexivity|].
  rewrite record_all_snoc, last_item_app. reflexivity.
Qed.

Lemma record_all_app ps qs self :
  record_all (ps ++ qs) self = record_all qs (record_all ps self).
Proof. unfold record_all. apply fold_left_app. Qed.

Lemma last_item_In (l : list Position) p : last_item l = Some p -> In p l.
Proof.
  induction l as [|a l IH]; [discriminate|].
  destruct l as [|b l]; cbn [last_item].
  - intros H. injection H as ->. left. reflexivity.
  - intros H. right. apply IH. exact H.
Qed.

Lemma In_skipn_list {A : Type} (x : A) (k : nat) (l : list A) :
  In x (skipn k l) -> In x l.
Proof.
  revert l. induction k as [|k IH]; intros l H; [exact H|].
  destruct l as [|a l]; [contradiction H|]. right. apply IH. exact H.
Qed.

End LoopFacts.

Import LoopFacts.

(** X10: a [readline] that raises, or a line whose decoding raises, is
    reported by one printed line and nothing else changes; wherever it
    stands in a run, the history and last position the run ends with are
    those of the run without it, so the loop goes on. *)
Theorem failures_are_reported_and_skipped
  (parse : string -> parse_result) (tm : time_module) (decode : string -> string)
  (pre post : list event) (r : readline) (e : exn) (self : GPSTracker) :
  r = ReadFails e \/
  (exists line, r = Line line /\ truthy line = true /\
                decode_line parse tm decode line = Raise e) ->
  iteration parse tm decode r self = print (ReadLoopError e) self /\
  store (while_loop parse tm decode (pre ++ Read r :: post) self)
  = store (while_loop parse tm decode (pre ++ post) self).
Proof.
  intros Hr.
  assert (Hit : iteration parse tm decode r self = print (ReadLoopError e) self).
  { destruct Hr as [->|[line [-> [Hne Hdec]]]]; [reflexivity|].
    unfold iteration. rewrite Hne, Hdec. reflexivity. }
  assert (Hfix : fix_of parse tm decode r = None).
  { destruct Hr as [->|[line [-> [Hne Hdec]]]]; [reflexivity|].
    unfold fix_of. rewrite Hne, Hdec. reflexivity. }
  split; [exact Hit|].
  rewrite !while_loop_store, (fixes_skip parse tm decode r pre post _ Hfix).
  reflexivity.
Qed.

Lemma failures_are_reported_and_skipped_witness :
  get_history
    (while_loop sample_parse sample_tm ascii_decode
       [Read (ReadFails SerialException); Read (Line rmc_short_lat_line);
        Read (Line rmc_active_line)] (fresh 10))
  = get_history
      (while_loop sample_parse sample_tm ascii_decode [Read (Line rmc_active_line)] (fresh 10)).
Proof.
  pose proof (failures_are_reported_and_skipped sample_parse sample_tm ascii_decode
                [] [Read (Line rmc_short_lat_line); Read (Line rmc_active_line)]
                (ReadFails SerialException) SerialException (fresh 10)
                (or_introl eq_refl)) as [_ H1].
  pose proof (failures_are_reported_and_skipped sample_parse sample_tm ascii_decode
                [] [Read (Line rmc_active_line)]
                (Line rmc_short_lat_line) ValueError (fresh 10)
                (or_intror (ex_intro _ rmc_short_lat_line
                              (conj eq_refl (conj eq_refl eq_refl))))) as [_ H2].
  exact (eq_trans (f_equal (fun s => items (fst s)) H1)
                  (f_equal (fun s => items (fst s)) H2)).
Defined.

(** X12: a stop request ends the loop at its next check: with the event
    set the loop does nothing at all, and in any run the events after the
    request are never processed. *)
Theorem stop_request_ends_the_loop
  (parse : string -> parse_result) (tm : time_module) (decode : string -> string) :
  (forall events self,
     _stop_event self = true -> while_loop parse tm decode events self = self) /\
  (forall pre post self,
     while_loop parse tm decode (pre ++ StopSet :: post) self
     = while_loop parse tm decode (pre ++ [StopSet]) self).
Proof.
  split; [apply while_loop_stopped|].
  induction pre as [|ev pre IH]; intros post self.
  - cbn [app while_loop]. destruct (_stop_event self); [reflexivity|].
    apply while_loop_stopped. reflexivity.
  - cbn [app while_loop]. destruct (_stop_event self); [reflexivity|].
    destruct ev as [r|]; apply IH.
Qed.

(** X13: [start] always returns normally with the worker alive; started
    again while the worker is alive it changes nothing; it never touches
    the history, the last position, the callback or the serial handle;
    and when it does start a worker it clears the stop event. *)
Theorem start_is_idempotent (self : GPSTracker) :
  let started := snd (start self) in
  fst (start self) = Ok tt /\
  thread_alive started = true /\
  start started = (Ok tt, started) /\
  store started = store self /\
  _callback started = _callback self /\
  _ser started = _ser self /\
  (thread_alive self = true -> started = self) /\
  (thread_alive self = false -> _stop_event started = false).
Proof.
  cbv zeta. unfold start.
  destruct (thread_alive self) eqn:Hth; cbn [fst snd].
  - rewrite Hth. repeat split; try reflexivity. intros H. discriminate H.
  - repeat split; try reflexivity. intros H. discriminate H.
Qed.

(* ================================================================== *)
(** ** Stopping and starting again *)

Module Lifecycle.
Import Py Nmea Tracker TrackerFacts LoopFacts.
Import List ListNotations.

Section Stop.

(** [Serial.close()]: the port as it is afterwards, or an exception. *)
Variable serial_close : Serial -> exc Serial.

(** The part of [stop] after the [join]: an open port is closed inside
    [try ... except Exception: pass]. *)
Definition close_port (self : GPSTracker) : GPSTracker :=
  match _ser self with
  | Some ser =>
      if is_open ser then
        match serial_close ser with
        | Ok closed => set_ser (Some closed) self
        | Raise _ => self
        end
      else self
  | None => self
  end.

(** [GPSTracker.stop].  It sets the event, then, when there is a thread
    object, calls [join(timeout=2.0)] on it, outside any [try]: [join]
    raises [RuntimeError] when the caller is that very thread
    ([caller_is_thread]: [stop] called from the callback), and otherwise
    waits and changes nothing the caller holds (what the worker does
    meanwhile is its own run).  Then it closes the port. *)
Definition stop (caller_is_thread : bool) (self : GPSTracker)
  : exc unit * GPSTracker :=
  let self := set_stop_event true self in
  match _thread self with
  | Some _ =>
      if caller_is_thread then (Raise RuntimeError, self)
      else (Ok tt, close_port self)
  | None => (Ok tt, close_port self)
  end.

End Stop.

(** What the loop leaves alone: the configuration, the serial handle,
    the thread object, the callback and the capacity; and it only adds
    to what was printed. *)
Definition same_setup (after before : GPSTracker) : Prop :=
  serial_port after = serial_port before /\
  baudrate after = baudrate before /\
  timeout after = timeout before /\
  _ser after = _ser before /\
  _thread after = _thread before /\
  _callback after = _callback before /\
  maxlen (_history after) = maxlen (_history before) /\
  exists more, stdout after = stdout before ++ more.

Lemma same_setup_refl self : same_setup self self.
Proof.
  repeat split; try reflexivity. exists []. symmetry. apply app_nil_r.
Qed.

Lemma same_setup_trans a b c : same_setup a b -> same_setup b c -> same_setup a c.
Proof.
  intros (A1 & A2 & A3 & A4 & A5 & A6 & A7 & [m1 A8])
         (B1 & B2 & B3 & B4 & B5 & B6 & B7 & [m2 B8]).
  repeat split; try congruence.
  exists (m2 ++ m1). rewrite A8, B8, app_assoc. reflexivity.
Qed.

Arguments same_setup_trans {a b c} _ _.

Lemma same_setup_print p self : same_setup (print p self) self.
Proof. repeat split; try reflexivity. exists [p]. reflexivity. Qed.

Lemma same_setup_record pos self : same_setup (record pos self) self.
Proof.
  repeat split; try reflexivity. exists []. symmetry. apply app_nil_r.
Qed.

Section Run.

Variable parse : string -> parse_result.
Variable tm : time_module.
Variable serial_Serial : string -> Z -> Q -> exc Serial.
Variable decode : string -> string.

Lemma same_setup_publish pos self : same_setup (publish pos self) self.
Proof.
  unfold publish. destruct (_callback (record pos self)) as [cb|].
  - destruct (cb pos).
    + apply same_setup_record.
    + apply (same_setup_trans (same_setup_print _ _) (same_setup_record pos self)).
  - apply same_setup_record.
Qed.

Lemma same_setup_iteration r self :
  same_setup (iteration parse tm decode r self) self.
Proof.
  unfold iteration. destruct r as [line|e]; [|apply same_setup_print].
  destruct (negb (truthy line)); [apply same_setup_refl|].
  destruct (decode_line parse tm decode line) as [[pos|]|e].
  - apply same_setup_publish.
  - apply same_setup_refl.
  - apply same_setup_print.
Qed.

Lemma same_setup_while_loop events : forall self,
  same_setup (while_loop parse tm decode events self) self.
Proof.
  induction events as [|ev rest IH]; intros self; [apply same_setup_refl|].
  cbn [while_loop]. destruct (_stop_event self); [apply same_setup_refl|].
  destruct ev as [r|].
  - apply (same_setup_trans (IH _) (same_setup_iteration r self)).
  - apply (same_setup_trans (IH _)). repeat split; try reflexivity.
    exists []. symmetry. apply app_nil_r.
Qed.

Lemma open_serial_returns self :
  (forall port baud t, returns (serial_Serial port baud t)) ->
  returns (_open_serial serial_Serial self).
Proof.
  intros Hser. unfold _open_serial. destruct (ser_open self).
  - exists self. reflexivity.
  - destruct (Hser (serial_port self) (baudrate self) (timeout self)) as [ser ->].
    cbn [bind]. eexists. reflexivity.
Qed.

(** A worker that was started is no longer alive after its run. *)
Lemma read_loop_exits events self :
  thread_alive self = true ->
  thread_alive (_read_loop parse tm serial_Serial decode events self) = false.
Proof.
  intros Halive. unfold thread_alive in Halive.
  destruct (_thread self) as [th|] eqn:Hth; [|discriminate Halive].
  unfold _read_loop, _open_serial.
  destruct (ser_open self); cbn [bind].
  - unfold thread_exit, thread_alive. cbn [set_thread _thread].
    destruct (same_setup_while_loop events self) as (_ & _ & _ & _ & H & _).
    rewrite H, Hth. reflexivity.
  - destruct (serial_Serial (serial_port self) (baudrate self) (timeout self)) as [ser|e];
      cbn [bind].
    + unfold thread_exit, thread_alive. cbn [set_thread _thread].
      destruct (same_setup_while_loop events (set_ser (Some ser) self))
        as (_ & _ & _ & _ & H & _).
      rewrite H. cbn [set_ser _thread]. rewrite Hth. reflexivity.
    + unfold thread_exit, thread_alive. cbn [set_thread print _thread].
      rewrite Hth. reflexivity.
Qed.

End Run.

(** What [start] does to a tracker. *)
Lemma start_effect self :
  thread_alive (snd (start self)) = true /\
  store (snd (start self)) = store self /\
  (thread_alive self = false -> _stop_event (snd (start self)) = false).
Proof.
  unfold start. destruct (thread_alive self) eqn:H; cbn [snd].
  - repeat split; [exact H | intros E; discriminate E].
  - repeat split.
Qed.

(** What closing the port leaves alone. *)
Lemma close_port_shape serial_close self :
  exists ser, close_port serial_close self = set_ser ser self /\
              (ser_open self = false -> ser = _ser self).
Proof.
  unfold close_port, ser_open.
  destruct (_ser self) as [ser|] eqn:Hser.
  - destruct (is_open ser) eqn:Hopen.
    + destruct (serial_close ser) as [closed|e].
      * exists (Some closed). split; [reflexivity | intros H; discriminate H].
      * exists (Some ser). split; [|reflexivity].
        unfold set_ser. rewrite <- Hser. destruct self; reflexivity.
    + exists (Some ser). split; [|reflexivity].
      unfold set_ser. rewrite <- Hser. destruct self; reflexivity.
  - exists None. split; [|reflexivity].
    unfold set_ser. rewrite <- Hser. destruct self; reflexivity.
Qed.

(** What [stop] leaves alone, whoever calls it. *)
Lemma stop_frame serial_close caller_is_thread self :
  store (snd (stop serial_close caller_is_thread self)) = store self /\
  thread_alive (snd (stop serial_close caller_is_thread self)) = thread_alive self.
Proof.
  unfold stop. cbn [set_stop_event _thread].
  destruct (close_port_shape serial_close (set_stop_event true self)) as [ser [-> _]].
  destruct (_thread self) as [th|] eqn:Hth; [destruct caller_is_thread|];
    cbn [snd]; split; try reflexivity;
    unfold thread_alive; cbn [set_ser set_stop_event _thread]; rewrite Hth; reflexivity.
Qed.

End Lifecycle.

Import Lifecycle.


(** X15: the history and the last position persist across a stop and a
    new start: with a port that opens, a run, then [stop] (whoever calls
    it), then [start] and a second run leave the tracker as recording the
    fixes of the first run followed by those of the second would (nothing
    is cleared in between), and the first worker has exited. *)
Theorem history_persists_across_restart
  (parse : string -> parse_result) (tm : time_module)
  (serial_Serial : string -> Z -> Q -> exc Serial) (decode : string -> string)
  (serial_close : Serial -> exc Serial) (caller_is_thread : bool)
  (events1 events2 : list event) (self : GPSTracker) :
  thread_alive self = false ->
  (forall port baud t, returns (serial_Serial port baud t)) ->
  let run1 := _read_loop parse tm serial_Serial decode events1 (snd (start self)) in
  let stopped := snd (stop serial_close caller_is_thread run1) in
  let run2 := _read_loop parse tm serial_Serial decode events2 (snd (start stopped)) in
  thread_alive run1 = false /\
  store run1 = store (record_all (fixes parse tm decode events1 false) self) /\
  store run2
  = store (record_all (fixes parse tm decode events1 false
                       ++ fixes parse tm decode events2 false) self).
Proof.
  intros Hidle Hser run1 stopped run2.
  destruct (start_effect self) as (Halive1 & Hstore1 & Hflag1).
  assert (Hexit : thread_alive run1 = false).
  { apply read_loop_exits. exact Halive1. }
  assert (Hrun1 : store run1
                  = store (record_all (fixes parse tm decode events1 false) self)).
  { unfold run1. rewrite read_loop_store by (apply open_serial_returns, Hser).
    rewrite (Hflag1 Hidle). apply record_all_store, Hstore1. }
  split; [exact Hexit|]. split; [exact Hrun1|].
  destruct (stop_frame serial_close caller_is_thread run1) as (Hstore_s & Halive_s).
  fold stopped in Hstore_s, Halive_s.
  destruct (start_effect stopped) as (_ & Hstore2 & Hflag2).
  unfold run2. rewrite read_loop_store by (apply open_serial_returns, Hser).
  rewrite Hflag2 by (rewrite Halive_s; exact Hexit).
  rewrite record_all_app.
  apply record_all_store. rewrite Hstore2, Hstore_s. exact Hrun1.
Qed.

Lemma history_persists_across_restart_witness :
  let close := fun _ : Serial => Ok {| is_open := false |} in
  let run1 := _read_loop sample_parse sample_tm serial_ok ascii_decode
                [Read (Line rmc_active_line)] (snd (start (fresh 10))) in
  let stopped := snd (stop close false run1) in
  let run2 := _read_loop sample_parse sample_tm serial_ok ascii_decode
                [Read (Line rmc_far_north_line)] (snd (start stopped)) in
  thread_alive run1 = false /\
  store run1
  = store (record_all
             (fixes sample_parse sample_tm ascii_decode
                [Read (Line rmc_active_line)] false)
             (fresh 10)) /\
  store run2
  = store (record_all
             (fixes sample_parse sample_tm ascii_decode
                [Read (Line rmc_active_line)] false
              ++ fixes sample_parse sample_tm ascii_decode
                   [Read (Line rmc_far_north_line)] false)
             (fresh 10)).
Proof.
  exact (history_persists_across_restart sample_parse sample_tm serial_ok
           ascii_decode (fun _ : Serial => Ok {| is_open := false |}) false
           [Read (Line rmc_active_line)] [Read (Line rmc_far_north_line)] (fresh 10)
           eq_refl (fun _ _ _ => ex_intro _ _ eq_refl)).
Defined.

(** X16: the tracker never invents a position: after any run from a new
    tracker, every position in the history, and the last position, is
    what [decode_line] produced for some line read during the run. *)
Theorem recorded_positions_come_from_lines
  (parse : string -> parse_result) (tm : time_module)
  (serial_Serial : string -> Z -> Q -> exc Serial) (decode : string -> string)
  (events : list event) (port : string) (baud : Z) (timeout : Q) (cap : nat)
  (p : Position) :
  let self := _read_loop parse tm serial_Serial decode events
                (init port baud timeout cap) in
  In p (get_history self) \/ get_last self = Some p ->
  exists line : string,
    In (Read (Line line)) events /\
    decode_line parse tm decode line = Ok (Some p).
Proof.
  intros self H.
  apply (fixes_In parse tm decode p events false).
  destruct (_open_serial serial_Serial (init port baud timeout cap)) as [opened|e] eqn:Hopen.
  - pose proof (read_loop_store parse tm serial_Serial decode events
                  (init port baud timeout cap) (ex_intro _ opened Hopen)) as Hs.
    fold self in Hs. cbn [init _stop_event] in Hs.
    set (fs := fixes parse tm decode events false) in *.
    unfold store in Hs. injection Hs as Hh Hl.
    destruct H as [H|H].
    + unfold get_history in H. rewrite Hh in H.
      change (In p (get_history (record_all fs (init port baud timeout cap)))) in H.
      rewrite record_all_history in H by reflexivity.
      apply (In_skipn_list _ _ _ H).
    + unfold get_last in H. rewrite Hl, record_all_last in H.
      destruct (last_item fs) as [q|] eqn:Hq; [|discriminate H].
      injection H as <-. apply last_item_In, Hq.
  - exfalso. unfold self, _read_loop in H. rewrite Hopen in H.
    destruct H as [H|H]; [contradiction H | discriminate H].
Qed.

Lemma recorded_positions_come_from_lines_witness :
  exists (p : Position) (line : string),
    get_last (_read_loop sample_parse sample_tm serial_ok ascii_decode
                [Read (Line gsa_line); Read (Line rmc_active_line)] (fresh 10)) = Some p /\
    In (Read (Line line)) [Read (Line gsa_line); Read (Line rmc_active_line)] /\
    decode_line sample_parse sample_tm ascii_decode line = Ok (Some p).
Proof.
  assert (Hlast : exists p,
    get_last (_read_loop sample_parse sample_tm serial_ok ascii_decode
                [Read (Line gsa_line); Read (Line rmc_active_line)] (fresh 10)) = Some p)
    by (vm_compute; eexists; reflexivity).
  destruct Hlast as [p Hp].
  destruct (recorded_positions_come_from_lines sample_parse sample_tm serial_ok
              ascii_decode [Read (Line gsa_line); Read (Line rmc_active_line)]
              "/dev/ttyUSB0"%string 9600%Z 1%Q 10%nat p (or_intror Hp))
    as [line [Hin Hdec]].
  exists p, line. split; [exact Hp | split; [exact Hin | exact Hdec]].
Defined.

(** X17: the loop never reconfigures the tracker: over any run the port
    name, baud rate, time-out, serial handle, thread object, callback and
    history capacity are unchanged, and what was printed before is still
    there, in order, at the head of what is printed after. *)
Theorem loop_keeps_the_setup
  (parse : string -> parse_result) (tm : time_module) (decode : string -> string)
  (events : list event) (self : GPSTracker) :
  let after := while_loop parse tm decode events self in
  serial_port after = serial_port self /\
  baudrate after = baudrate self /\
  Tracker.timeout after = Tracker.timeout self /\
  _ser after = _ser self /\
  _thread after = _thread self /\
  _callback after = _callback self /\
  maxlen (_history after) = maxlen (_history self) /\
  exists more, stdout after = stdout self ++ more.
Proof. exact (same_setup_while_loop parse tm decode events self). Qed.

(** X18: with a capacity of at least one, after any recordings that end
    with [p] the history is not empty and its newest item is [p], which
    is also the last position; with capacity zero the history stays
    empty while the last position is still [p]. *)
Theorem newest_item_by_capacity
  (port : string) (baud : Z) (timeout : Q) (cap : nat)
  (ps : list Position) (p : Position) :
  let self := record_all (ps ++ [p]) (init port baud timeout cap) in
  get_last self = Some p /\
  ((1 <= cap)%nat -> last_item (get_history self) = Some p) /\
  (cap = 0%nat -> get_history self = []).
Proof.
  cbv zeta. split; [|split].
  - unfold get_last. rewrite record_all_last, last_item_app. reflexivity.
  - intros Hcap. rewrite record_all_history by reflexivity.
    cbn [init _history maxlen]. rewrite skipn_app.
    rewrite length_app. cbn [length].
    replace (length ps + 1 - cap - length ps)%nat with 0%nat by lia.
    cbn [skipn]. apply last_item_app.
  - intros ->. rewrite record_all_history by reflexivity.
    cbn [init _history maxlen]. rewrite Nat.sub_0_r. apply skipn_all.
Qed.

(* ================================================================== *)
(** ** The callback *)

Module CallbackFacts.
Import Py Nmea Tracker TrackerFacts LoopFacts Lifecycle.
Import List ListNotations.

Definition is_callback_error (p : printed) : bool :=
  match p with
  | CallbackError _ => true
  | ErrorOpeningSerial _ _ | ReadLoopError _ => false
  end.

(** How many callback errors were printed. *)
Definition callback_errors (out : list printed) : nat :=
  length (filter is_callback_error out).

Definition raises {A : Type} (m : exc A) : bool :=
  match m with
  | Ok _ => false
  | Raise _ => true
  end.

Lemma callback_errors_app a b :
  callback_errors (a ++ b) = (callback_errors a + callback_errors b)%nat.
Proof. unfold callback_errors. rewrite filter_app, length_app. reflexivity. Qed.

Section Run.

Variable parse : string -> parse_result.
Variable tm : time_module.
Variable decode : string -> string.
Variable cb : Position -> exc unit.

Lemma publish_callback_errors pos self :
  _callback self = Some cb ->
  callback_errors (stdout (publish pos self))
  = (callback_errors (stdout self) + if raises (cb pos) then 1 else 0)%nat.
Proof.
  intros Hcb. unfold publish. cbn [record _callback]. rewrite Hcb.
  destruct (cb pos) as [u|e]; cbn [raises].
  - cbn [record stdout]. lia.
  - cbn [print record stdout]. rewrite callback_errors_app. reflexivity.
Qed.

Lemma iteration_callback_errors r self :
  _callback self = Some cb ->
  callback_errors (stdout (iteration parse tm decode r self))
  = (callback_errors (stdout self)
     + match fix_of parse tm decode r with
       | Some pos => if raises (cb pos) then 1 else 0
       | None => 0
       end)%nat.
Proof.
  intros Hcb. unfold iteration, fix_of. destruct r as [line|e].
  - destruct (negb (truthy line)); [lia|].
    destruct (decode_line parse tm decode line) as [[pos|]|e].
    + apply publish_callback_errors, Hcb.
    + lia.
    + cbn [print stdout]. rewrite callback_errors_app. cbn. lia.
  - cbn [print stdout]. rewrite callback_errors_app. cbn. lia.
Qed.

Lemma while_loop_callback_errors events : forall self,
  _callback self = Some cb ->
  callback_errors (stdout (while_loop parse tm decode events self))
  = (callback_errors (stdout self)
     + length (filter (fun pos => raises (cb pos))
                 (fixes parse tm decode events (_stop_event self))))%nat.
Proof.
  induction events as [|ev rest IH]; intros self Hcb.
  - cbn. lia.
  - cbn [while_loop fixes]. destruct (_stop_event self) eqn:Hstop; [cbn; lia|].
    destruct ev as [r|].
    + assert (Hcb' : _callback (iteration parse tm decode r self) = Some cb).
      { destruct (same_setup_iteration parse tm decode r self)
          as (_ & _ & _ & _ & _ & H & _). rewrite H. exact Hcb. }
      rewrite (IH _ Hcb'), (iteration_callback_errors r self Hcb).
      rewrite iteration_stop_event, Hstop.
      destruct (fix_of parse tm decode r) as [pos|]; [|lia].
      cbn [filter]. destruct (raises (cb pos)); cbn [length]; lia.
    + rewrite (IH (set_stop_event true self) Hcb). reflexivity.
Qed.

End Run.

End CallbackFacts.

Import CallbackFacts.

(** X19: the callback is called once for each position the loop records:
    over any run, the number of callback errors printed grows by exactly
    the number of recorded fixes on which the registered callback raises
    (so by the number of fixes for a callback that always raises, and by
    none for one that always returns). *)
Theorem callback_runs_once_per_fix
  (parse : string -> parse_result) (tm : time_module) (decode : string -> string)
  (cb : Position -> exc unit) (events : list event) (self : GPSTracker) :
  _callback self = Some cb ->
  callback_errors (stdout (while_loop parse tm decode events self))
  = (callback_errors (stdout self)
     + length (filter (fun pos => raises (cb pos))
                 (fixes parse tm decode events (_stop_event self))))%nat.
Proof. apply while_loop_callback_errors. Qed.

Lemma callback_runs_once_per_fix_witness :
  callback_errors
    (stdout (while_loop sample_parse sample_tm ascii_decode
               [Read (Line rmc_active_line); Read (Line gsa_line);
                Read (Line rmc_far_north_line)]
               (set_callback (fun _ => Raise TypeError) (fresh 10))))
  = 2%nat.
Proof.
  refine (eq_trans
            (callback_runs_once_per_fix sample_parse sample_tm ascii_decode
               (fun _ => Raise TypeError)
               [Read (Line rmc_active_line); Read (Line gsa_line);
                Read (Line rmc_far_north_line)]
               (set_callback (fun _ => Raise TypeError) (fresh 10)) eq_refl) _).
  vm_compute. reflexivity.
Defined.
